(** * KiCad GUI scaffolding: schematic fields, drawing frame, settings manager

    A shallow embedding of the parts of
      - eeschema/sch_field.cpp          (SCH_FIELD),
      - common/eda_draw_frame.cpp       (EDA_DRAW_FRAME),
      - include/settings/settings_manager.h (SETTINGS_MANAGER)
    that the testable properties of the specification talk about.

    Conventions.
      - A C++ [int] is a [Z]; every arithmetic operation of the code is
        followed by [wrap], the two's-complement reduction to 32 bits.
      - A [wxString]/[std::string] is a [string].
      - A pointer that may be null is an [option].
      - Helpers whose bodies live in files that are not part of the sources
        at hand are either fields of an interface class (when the properties
        do not depend on what they compute) or definitions whose comment
        starts with "Modelled from the spec:". *)

From Stdlib Require Import ZArith Lia Bool Ascii.
From stdpp Require Import base gmap sets list strings.
From Equations Require Import Equations.
From Stdlib Require OrdersEx.
From stdpp Require Import sorting.

Local Open Scope Z_scope.

(** ** Machine integers *)

Module CInt.

Definition int_bits : Z := 32.
Definition int_modulus : Z := 2 ^ int_bits.
Definition INT_MIN : Z := - 2 ^ (int_bits - 1).
Definition INT_MAX : Z := 2 ^ (int_bits - 1) - 1.

(** Reduction of a mathematical integer to the value a 32-bit [int] holds. *)
Definition wrap (z : Z) : Z := (z + 2 ^ 31) mod 2 ^ 32 - 2 ^ 31.

Definition is_int (z : Z) : Prop := INT_MIN <= z <= INT_MAX.

Definition int_add (a b : Z) : Z := wrap (a + b).
Definition int_sub (a b : Z) : Z := wrap (a - b).
Definition int_mul (a b : Z) : Z := wrap (a * b).
Definition int_neg (a : Z) : Z := wrap (- a).
(** C++ [/] on [int]: truncation toward zero. *)
Definition int_div (a b : Z) : Z := wrap (Z.quot a b).
(** C++ [>>] on a signed [int]: arithmetic shift. *)
Definition int_shr (a n : Z) : Z := wrap (Z.shiftr a n).

Lemma wrap_small z : is_int z -> wrap z = z.
Proof.
  unfold is_int, INT_MIN, INT_MAX, int_bits, wrap. intros Hz.
  rewrite Z.mod_small; lia.
Qed.

Lemma wrap_is_int z : is_int (wrap z).
Proof.
  unfold is_int, INT_MIN, INT_MAX, int_bits, wrap.
  pose proof (Z.mod_pos_bound (z + 2 ^ 31) (2 ^ 32) ltac:(lia)). lia.
Qed.

(** Congruence modulo 2^32: what [wrap] cannot tell apart. *)
Definition eqw (a b : Z) : Prop := a mod 2 ^ 32 = b mod 2 ^ 32.

#[export] Instance eqw_equiv : Equivalence eqw.
Proof.
  split; unfold eqw.
  - intros a; reflexivity.
  - intros a b H; symmetry; exact H.
  - intros a b c H1 H2; congruence.
Qed.

#[export] Instance eqw_add : Proper (eqw ==> eqw ==> eqw) Z.add.
Proof.
  intros a a' Ha b b' Hb. unfold eqw in *.
  rewrite (Zplus_mod a b), (Zplus_mod a' b'), Ha, Hb. reflexivity.
Qed.

#[export] Instance eqw_mul : Proper (eqw ==> eqw ==> eqw) Z.mul.
Proof.
  intros a a' Ha b b' Hb. unfold eqw in *.
  rewrite (Zmult_mod a b), (Zmult_mod a' b'), Ha, Hb. reflexivity.
Qed.

#[export] Instance eqw_sub : Proper (eqw ==> eqw ==> eqw) Z.sub.
Proof.
  intros a a' Ha b b' Hb. unfold eqw in *.
  rewrite (Zminus_mod a b), (Zminus_mod a' b'), Ha, Hb. reflexivity.
Qed.

#[export] Instance eqw_opp : Proper (eqw ==> eqw) Z.opp.
Proof.
  intros a a' Ha. rewrite <- (Z.sub_0_l a), <- (Z.sub_0_l a').
  apply eqw_sub; [reflexivity | exact Ha].
Qed.

Lemma wrap_eqw z : eqw (wrap z) z.
Proof.
  unfold eqw, wrap. rewrite Zminus_mod_idemp_l. f_equal. lia.
Qed.

Lemma eqw_wrap a b : eqw a b -> wrap a = wrap b.
Proof.
  intros H. unfold wrap. f_equal.
  apply (eqw_add a b H (2 ^ 31) (2 ^ 31)). reflexivity.
Qed.

#[export] Instance eqw_wrap_proper : Proper (eqw ==> eqw) wrap.
Proof. intros a b H. rewrite (eqw_wrap a b H). reflexivity. Qed.

(** An [int] computed by the code equals a given in-range value as soon as
    the two agree modulo 2^32. *)
Lemma wrap_eq_of_eqw a b : is_int b -> eqw a b -> wrap a = b.
Proof. intros Hb H. rewrite <- (wrap_small b Hb). now apply eqw_wrap. Qed.

Lemma quot_minus_one a : Z.quot a (-1) = - a.
Proof.
  change (-1) with (- (1)). rewrite Z.quot_opp_r by lia. now rewrite Z.quot_1_r.
Qed.

End CInt.

(** ** Points, rectangles and the 2x2 component transform *)

Module Geometry.
Import CInt.

(** [wxPoint]: a pair of [int] coordinates with componentwise [+] and [-].
    [wxSize] has the same two members and is the same record here. *)
Record wxPoint : Type := mkPoint { x : Z; y : Z }.
Abbreviation wxSize := wxPoint (only parsing).

Definition pt_add (p q : wxPoint) : wxPoint :=
  mkPoint (int_add (x p) (x q)) (int_add (y p) (y q)).
Definition pt_sub (p q : wxPoint) : wxPoint :=
  mkPoint (int_sub (x p) (x q)) (int_sub (y p) (y q)).

Definition is_point (p : wxPoint) : Prop := is_int (x p) /\ is_int (y p).

(** Modelled from the spec: the header macros.h is not among the sources.
    MIRROR(a, b) reflects the coordinate [a] about the reference [b]:
    a = -(a - b) + b. *)
Definition MIRROR (a b : Z) : Z := int_add (int_neg (int_sub a b)) b.

(** Modelled from the spec: trigo.cpp is not among the sources.  The angle is
    in tenths of a degree and is first normalised into [0, 3600). *)
Definition NORMALIZE_ANGLE_POS (angle : Z) : Z := angle mod 3600.

(** Modelled from the spec: trigo.cpp is not among the sources.
    RotatePoint(&x, &y, angle) about the origin; the quarter turns are exact
    integer operations, every other angle goes through floating-point sine
    and cosine, which is left to the argument [rotate_any]. *)
Definition RotateXY (rotate_any : Z -> Z -> Z -> Z * Z) (px py angle : Z) : Z * Z :=
  let a := NORMALIZE_ANGLE_POS angle in
  if a =? 0 then (px, py)
  else if a =? 900 then (py, int_neg px)
  else if a =? 1800 then (int_neg px, int_neg py)
  else if a =? 2700 then (int_neg py, px)
  else rotate_any px py a.

(** Modelled from the spec: trigo.cpp is not among the sources.
    RotatePoint(&point, centre, angle): translate, rotate, translate back. *)
Definition RotatePoint (rotate_any : Z -> Z -> Z -> Z * Z)
    (point centre : wxPoint) (angle : Z) : wxPoint :=
  let ox := int_sub (x point) (x centre) in
  let oy := int_sub (y point) (y centre) in
  let r := RotateXY rotate_any ox oy angle in
  mkPoint (int_add (fst r) (x centre)) (int_add (snd r) (y centre)).

(** [TRANSFORM]: the integer matrix ((x1 y1) (x2 y2)) a symbol applies to the
    items it owns (a rotation by a quarter turn and/or a mirror). *)
Record TRANSFORM : Type := mkTransform { x1 : Z; y1 : Z; x2 : Z; y2 : Z }.

Definition identity_transform : TRANSFORM := mkTransform 1 0 0 1.

(** Modelled from the spec: transform.cpp is not among the sources.
    TransformCoordinate applies the matrix to a point. *)
Definition TransformCoordinate (t : TRANSFORM) (p : wxPoint) : wxPoint :=
  mkPoint (int_add (int_mul (x1 t) (x p)) (int_mul (y1 t) (y p)))
          (int_add (int_mul (x2 t) (x p)) (int_mul (y2 t) (y p))).

(** The determinant as the code computes it, in [int]. *)
Definition det (t : TRANSFORM) : Z :=
  int_sub (int_mul (x1 t) (y2 t)) (int_mul (x2 t) (y1 t)).

(** Modelled from the spec: transform.cpp is not among the sources.
    InverseTransform is the adjugate divided, entry by entry, by the
    determinant. *)
Definition InverseTransform (t : TRANSFORM) : TRANSFORM :=
  let d := det t in
  mkTransform (int_div (y2 t) d) (int_div (int_neg (y1 t)) d)
              (int_div (int_neg (x2 t)) d) (int_div (x1 t) d).

(** The mathematical determinant, used to say which transforms are
    rotations or mirrors. *)
Definition determinant (t : TRANSFORM) : Z := x1 t * y2 t - x2 t * y1 t.

(** Modelled from the spec: eda_rect.h and its implementation are not among
    the sources.  [EDA_RECT] is an origin and a size; the size may be negative
    until the rectangle is normalised.  The accessors below are the ones
    SCH_FIELD::GetBoundingBox calls. *)
Record EDA_RECT : Type := mkRect { m_Pos : wxPoint; m_Size : wxSize }.

(** Modelled from the spec: EDA_RECT accessors (eda_rect.h, not among the
    sources): the end is origin plus size, SetOrigin keeps the size, SetEnd
    keeps the origin and recomputes the size, Move shifts the origin. *)
Definition GetOrigin (r : EDA_RECT) : wxPoint := m_Pos r.
Definition GetEnd (r : EDA_RECT) : wxPoint :=
  mkPoint (int_add (x (m_Pos r)) (x (m_Size r))) (int_add (y (m_Pos r)) (y (m_Size r))).
Definition SetOrigin (r : EDA_RECT) (pos : wxPoint) : EDA_RECT := mkRect pos (m_Size r).
Definition SetEnd (r : EDA_RECT) (pos : wxPoint) : EDA_RECT :=
  mkRect (m_Pos r) (mkPoint (int_sub (x pos) (x (m_Pos r))) (int_sub (y pos) (y (m_Pos r)))).
Definition Move (r : EDA_RECT) (aMoveVector : wxPoint) : EDA_RECT :=
  mkRect (pt_add (m_Pos r) aMoveVector) (m_Size r).

(** Modelled from the spec: EDA_RECT::Normalize (not among the sources) makes
    both sizes non-negative, moving the origin to the other corner; the y axis
    is treated first. *)
Definition Normalize (r : EDA_RECT) : EDA_RECT :=
  let r1 :=
    if y (m_Size r) <? 0 then
      let sy := int_neg (y (m_Size r)) in
      mkRect (mkPoint (x (m_Pos r)) (int_sub (y (m_Pos r)) sy)) (mkPoint (x (m_Size r)) sy)
    else r in
  if x (m_Size r1) <? 0 then
    let sx := int_neg (x (m_Size r1)) in
    mkRect (mkPoint (int_sub (x (m_Pos r1)) sx) (y (m_Pos r1))) (mkPoint sx (y (m_Size r1)))
  else r1.

(** Modelled from the spec: EDA_RECT::Centre (not among the sources) is the
    origin plus half the size, the half taken by a right shift by one. *)
Definition Centre (r : EDA_RECT) : wxPoint :=
  mkPoint (int_add (x (m_Pos r)) (int_shr (x (m_Size r)) 1))
          (int_add (y (m_Pos r)) (int_shr (y (m_Size r)) 1)).

Lemma wxPoint_eq (p q : wxPoint) : x p = x q -> y p = y q -> p = q.
Proof. destruct p, q; simpl; congruence. Qed.

End Geometry.

(** ** eeschema/sch_field.cpp *)

Module SchField.
Import CInt Geometry.

(** The owner of a field, as far as SCH_FIELD looks at it: its run-time type
    ([m_Parent->Type()]) and, for a symbol, position and transform. *)
Record SCH_COMPONENT : Type := mkComponent {
  comp_Pos : wxPoint;
  comp_transform : TRANSFORM;
  comp_unit : Z;
  comp_unitCount : Z
}.

Record SCH_SHEET : Type := mkSheet { sheet_pos : wxPoint }.

Inductive SCH_ITEM : Type :=
| ItemComponent (c : SCH_COMPONENT)    (* Type() == SCH_COMPONENT_T *)
| ItemSheet (s : SCH_SHEET)            (* Type() == SCH_SHEET_T *)
| ItemOther (kicad_t : Z).             (* any other KICAD_T *)

Inductive COLOR4D : Type :=
| DARKGRAY
| LayerColor (layer : Z).

Inductive EDA_TEXT_HJUSTIFY_T : Type :=
| GR_TEXT_HJUSTIFY_LEFT | GR_TEXT_HJUSTIFY_CENTER | GR_TEXT_HJUSTIFY_RIGHT.
Inductive EDA_TEXT_VJUSTIFY_T : Type :=
| GR_TEXT_VJUSTIFY_TOP | GR_TEXT_VJUSTIFY_CENTER | GR_TEXT_VJUSTIFY_BOTTOM.

(** SCH_FIELD = SCH_ITEM part (parent, layer, forced visibility), the field's
    own members (id, name) and the EDA_TEXT part (text and text effects).
    The text angle is kept in tenths of a degree. *)
Record SCH_FIELD : Type := mkField {
  m_Parent : option SCH_ITEM;
  m_Layer : Z;
  m_forceVisible : bool;
  m_id : Z;
  m_name : string;
  m_text : string;
  m_textPos : wxPoint;
  m_textAngle : Z;
  m_textSize : wxSize;
  m_thickness : Z;
  m_visible : bool;
  m_bold : bool;
  m_italic : bool;
  m_hjustify : EDA_TEXT_HJUSTIFY_T;
  m_vjustify : EDA_TEXT_VJUSTIFY_T;
  m_markupFlags : Z
}.

Definition GetText (f : SCH_FIELD) : string := m_text f.
Definition GetTextPos (f : SCH_FIELD) : wxPoint := m_textPos f.
Definition GetTextAngle (f : SCH_FIELD) : Z := m_textAngle f.
Definition GetTextSize (f : SCH_FIELD) : wxSize := m_textSize f.
Definition GetTextWidth (f : SCH_FIELD) : Z := x (m_textSize f).
Definition GetThickness (f : SCH_FIELD) : Z := m_thickness f.
Definition IsVisible (f : SCH_FIELD) : bool := m_visible f.
Definition IsBold (f : SCH_FIELD) : bool := m_bold f.
Definition IsItalic (f : SCH_FIELD) : bool := m_italic f.
Definition GetTextMarkupFlags (f : SCH_FIELD) : Z := m_markupFlags f.

Definition SetTextPos (f : SCH_FIELD) (aPos : wxPoint) : SCH_FIELD :=
  mkField (m_Parent f) (m_Layer f) (m_forceVisible f) (m_id f) (m_name f) (m_text f)
          aPos (m_textAngle f) (m_textSize f) (m_thickness f) (m_visible f)
          (m_bold f) (m_italic f) (m_hjustify f) (m_vjustify f) (m_markupFlags f).

Definition SetText (f : SCH_FIELD) (aText : string) : SCH_FIELD :=
  mkField (m_Parent f) (m_Layer f) (m_forceVisible f) (m_id f) (m_name f) aText
          (m_textPos f) (m_textAngle f) (m_textSize f) (m_thickness f) (m_visible f)
          (m_bold f) (m_italic f) (m_hjustify f) (m_vjustify f) (m_markupFlags f).

(** Field 0 of a symbol is its reference (see the head of sch_field.cpp). *)
Definition REFERENCE : Z := 0.

Definition TEXT_ANGLE_HORIZ : Z := 0.
Definition TEXT_ANGLE_VERT : Z := 900.

(** What SCH_FIELD takes from the text and drawing layers, whose code is not
    among the sources: pen sizes, the extent of a string in the stroke font
    (EDA_TEXT::GetTextBox), the expansion of text variables, unit suffixes,
    the floating-point branch of RotatePoint, layer colours and the hit tests
    of EDA_RECT. *)
Class TextLayer : Type := {
  GetDefaultLineThickness : Z;
  GetPenSizeForBold : Z -> Z;
  Clamp_Text_PenSize : Z -> wxSize -> bool -> Z;
  (** GetTextBox(aLine, aThickness, aInvertY, aMarkupFlags) of a text item *)
  GetTextBox : SCH_FIELD -> Z -> Z -> bool -> Z -> EDA_RECT;
  (** ExpandTextVars( GetText(), resolver, project ), with the resolver of
      the owner's kind (symbol or sheet) *)
  ExpandTextVars : SCH_FIELD -> string;
  (** LIB_PART::SubReference( unit ) *)
  SubReference : Z -> string;
  (** the field id of a sheet's file name *)
  SHEETFILENAME : Z;
  rotate_any : Z -> Z -> Z -> Z * Z;
  GetLayerColor : Z -> COLOR4D;
  Inflate : EDA_RECT -> Z -> EDA_RECT;
  Contains : EDA_RECT -> wxPoint -> bool;
  ContainsRect : EDA_RECT -> EDA_RECT -> bool;
  Intersects : EDA_RECT -> EDA_RECT -> bool
}.

(** One call of GRText, as the device context receives it. *)
Record GRText_call : Type := mkGRText {
  gr_pos : wxPoint;
  gr_color : COLOR4D;
  gr_text : string;
  gr_orient : Z;
  gr_size : wxSize;
  gr_hjustify : EDA_TEXT_HJUSTIFY_T;
  gr_vjustify : EDA_TEXT_VJUSTIFY_T;
  gr_width : Z;
  gr_italic : bool;
  gr_bold : bool
}.

(** The device context is what has been drawn on it. *)
Abbreviation wxDC := (list GRText_call) (only parsing).

Section Field.
Context `{TL : TextLayer}.

Definition is_component (p : option SCH_ITEM) : option SCH_COMPONENT :=
  match p with
  | Some (ItemComponent c) => Some c
  | _ => None
  end.

Definition GetParentPosition (f : SCH_FIELD) : wxPoint :=
  match m_Parent f with
  | Some (ItemComponent c) => comp_Pos c
  | Some (ItemSheet s) => sheet_pos s
  | _ => mkPoint 0 0
  end.

(** The text as shown: variables expanded, the unit suffix appended to the
    reference of a multi-unit symbol, "File: " put before a sheet's file
    name. *)
Definition GetShownText (f : SCH_FIELD) : string :=
  let text :=
    match m_Parent f with
    | Some (ItemComponent _) => ExpandTextVars f
    | Some (ItemSheet _) => ExpandTextVars f
    | _ => GetText f
    end in
  let text :=
    match m_Parent f with
    | Some (ItemComponent component) =>
        if (m_id f =? REFERENCE) && (1 <? comp_unitCount component)
        then text +:+ SubReference (comp_unit component)
        else text
    | _ => text
    end in
  match m_Parent f with
  | Some (ItemSheet _) =>
      if m_id f =? SHEETFILENAME then "File: " +:+ text else text
  | _ => text
  end.

Definition GetBoundingBox (f : SCH_FIELD) : EDA_RECT :=
  let linewidth :=
    if GetThickness f =? 0 then GetDefaultLineThickness else GetThickness f in
  let linewidth := Clamp_Text_PenSize linewidth (GetTextSize f) (IsBold f) in
  let text := SetText f (GetShownText f) in
  let rect := GetTextBox text (-1) linewidth false (GetTextMarkupFlags f) in
  let origin := GetParentPosition f in
  let pos := pt_sub (GetTextPos f) origin in
  let begin := pt_sub (GetOrigin rect) origin in
  let end_ := pt_sub (GetEnd rect) origin in
  let begin := RotatePoint rotate_any begin pos (GetTextAngle f) in
  let end_ := RotatePoint rotate_any end_ pos (GetTextAngle f) in
  let '(begin, end_, transform) :=
    match is_component (m_Parent f) with
    | Some parentComponent =>
        (mkPoint (x begin) (MIRROR (y begin) (y pos)),
         mkPoint (x end_) (MIRROR (y end_) (y pos)),
         comp_transform parentComponent)
    | None => (begin, end_, mkTransform 1 0 0 1)
    end in
  let rect := SetOrigin rect (TransformCoordinate transform begin) in
  let rect := SetEnd rect (TransformCoordinate transform end_) in
  let rect := Move rect origin in
  Normalize rect.

Definition IsVoid (f : SCH_FIELD) : bool :=
  (String.length (GetText f) =? 0)%nat.

Definition HitTest (f : SCH_FIELD) (aPosition : wxPoint) (aAccuracy : Z) : bool :=
  if negb (IsVisible f) || IsVoid f then false
  else
    let rect := GetBoundingBox f in
    let rect := Inflate rect aAccuracy in
    Contains rect aPosition.

Definition HitTestRect (f : SCH_FIELD) (aRect : EDA_RECT) (aContained : bool)
    (aAccuracy : Z) : bool :=
  if negb (IsVisible f) || IsVoid f then false
  else
    let rect := Inflate aRect aAccuracy in
    if aContained then ContainsRect rect (GetBoundingBox f)
    else Intersects rect (GetBoundingBox f).

Definition Print (aDC : wxDC) (f : SCH_FIELD) (aOffset : wxPoint) : wxDC :=
  let lineWidth := GetThickness f in
  let lineWidth :=
    if lineWidth =? 0 then
      (if IsBold f then GetPenSizeForBold (GetTextWidth f) else GetDefaultLineThickness)
    else lineWidth in
  let lineWidth := Clamp_Text_PenSize lineWidth (GetTextSize f) (IsBold f) in
  if (negb (IsVisible f) && negb (m_forceVisible f)) || IsVoid f then aDC
  else
    let orient := GetTextAngle f in
    let orient :=
      match is_component (m_Parent f) with
      | Some parentComponent =>
          if negb (y1 (comp_transform parentComponent) =? 0) then
            (if orient =? TEXT_ANGLE_HORIZ then TEXT_ANGLE_VERT else TEXT_ANGLE_HORIZ)
          else orient
      | None => orient
      end in
    let boundaryBox := GetBoundingBox f in
    let textpos := pt_add (Centre boundaryBox) aOffset in
    let color := if m_forceVisible f then DARKGRAY else GetLayerColor (m_Layer f) in
    aDC ++ [mkGRText textpos color (GetShownText f) orient (GetTextSize f)
              GR_TEXT_HJUSTIFY_CENTER GR_TEXT_VJUSTIFY_CENTER lineWidth
              (IsItalic f) (IsBold f)].

Definition SetPosition (f : SCH_FIELD) (aPosition : wxPoint) : SCH_FIELD :=
  match is_component (m_Parent f) with
  | Some parentComponent =>
      let relativePos := pt_sub aPosition (comp_Pos parentComponent) in
      let relativePos :=
        TransformCoordinate (InverseTransform (comp_transform parentComponent)) relativePos in
      SetTextPos f (pt_add relativePos (comp_Pos parentComponent))
  | None => SetTextPos f aPosition
  end.

Definition GetPosition (f : SCH_FIELD) : wxPoint :=
  match is_component (m_Parent f) with
  | Some parentComponent =>
      let relativePos := pt_sub (GetTextPos f) (comp_Pos parentComponent) in
      let relativePos := TransformCoordinate (comp_transform parentComponent) relativePos in
      pt_add relativePos (comp_Pos parentComponent)
  | None => GetTextPos f
  end.

Definition IsHorizJustifyFlipped (f : SCH_FIELD) : bool :=
  let render_center := Centre (GetBoundingBox f) in
  let pos := GetPosition f in
  match m_hjustify f with
  | GR_TEXT_HJUSTIFY_LEFT => x render_center <? x pos
  | GR_TEXT_HJUSTIFY_RIGHT => x pos <? x render_center
  | GR_TEXT_HJUSTIFY_CENTER => false
  end.

(** The rectangle GetBoundingBox starts from: GetTextBox of the local copy
    that carries the shown text, at the effective pen width. *)
Definition field_text_box (f : SCH_FIELD) : EDA_RECT :=
  GetTextBox (SetText f (GetShownText f)) (-1)
    (Clamp_Text_PenSize
       (if GetThickness f =? 0 then GetDefaultLineThickness else GetThickness f)
       (GetTextSize f) (IsBold f))
    false (GetTextMarkupFlags f).

End Field.


(** Vocabulary of the bounding-box properties. *)

(** The text angle is a multiple of a quarter turn (tenths of a degree). *)
Definition right_angle (a : Z) : Prop := a = 0 \/ a = 900 \/ a = 1800 \/ a = 2700.

(** No transform is applied by the owner: the owner is not a symbol (the
    code then takes TRANSFORM( 1, 0, 0, 1 )), or it is a symbol whose
    transform is that matrix. *)
Definition parent_transform_is_identity (f : SCH_FIELD) : Prop :=
  match is_component (m_Parent f) with
  | Some c => comp_transform c = identity_transform
  | None => True
  end.

(** The rectangle [r] has the point [p] exactly in its middle. *)
Definition centred_on (r : EDA_RECT) (p : wxPoint) : Prop :=
  x (GetOrigin r) + x (GetEnd r) = 2 * x p /\
  y (GetOrigin r) + y (GetEnd r) = 2 * y p.

(** Both coordinates are at most [L] in absolute value. *)
Definition within (L : Z) (p : wxPoint) : Prop :=
  (- L <= x p <= L) /\ (- L <= y p <= L).

(** A bound on coordinates under which no step of GetBoundingBox leaves the
    range of [int]. *)
Definition coord_limit : Z := 2 ^ 26.

(** A text layer that lays every text out left/top justified: the box starts
    at the anchor and is 100 by 50 units.  (Print and Plot draw at the centre
    of the bounding box with centred justification precisely because the box
    of a justified text does not sit around its anchor.) *)
Definition left_top_layer : TextLayer := {|
  GetDefaultLineThickness := 6;
  GetPenSizeForBold := fun w => w / 5;
  Clamp_Text_PenSize := fun pen _ _ => pen;
  GetTextBox := fun t _ _ _ _ => mkRect (m_textPos t) (mkPoint 100 50);
  ExpandTextVars := fun t => m_text t;
  SubReference := fun _ => "A";
  SHEETFILENAME := 1;
  rotate_any := fun px py _ => (px, py);
  GetLayerColor := fun l => LayerColor l;
  Inflate := fun r _ => r;
  Contains := fun _ _ => false;
  ContainsRect := fun _ _ => false;
  Intersects := fun _ _ => false
|}.

(** A text layer that lays every text out centred on its anchor, in a box of
    100 by 50 units. *)
Definition centred_layer : TextLayer := {|
  GetDefaultLineThickness := 6;
  GetPenSizeForBold := fun w => w / 5;
  Clamp_Text_PenSize := fun pen _ _ => pen;
  GetTextBox := fun t _ _ _ _ =>
    mkRect (mkPoint (x (m_textPos t) - 50) (y (m_textPos t) - 25)) (mkPoint 100 50);
  ExpandTextVars := fun t => m_text t;
  SubReference := fun _ => "A";
  SHEETFILENAME := 1;
  rotate_any := fun px py _ => (px, py);
  GetLayerColor := fun l => LayerColor l;
  Inflate := fun r _ => r;
  Contains := fun _ _ => false;
  ContainsRect := fun _ _ => false;
  Intersects := fun _ _ => false
|}.

(** A reference field "R1" owned by nothing, anchored at (300, 200). *)
Definition field_R1 (angle : Z) : SCH_FIELD := {|
  m_Parent := None; m_Layer := 0; m_forceVisible := false; m_id := 0;
  m_name := "Reference"; m_text := "R1"; m_textPos := mkPoint 300 200;
  m_textAngle := angle; m_textSize := mkPoint 50 50; m_thickness := 0;
  m_visible := true; m_bold := false; m_italic := false;
  m_hjustify := GR_TEXT_HJUSTIFY_LEFT; m_vjustify := GR_TEXT_VJUSTIFY_TOP;
  m_markupFlags := 0
|}.

(** A symbol at (1000, 2000), mirrored about the x axis. *)
Definition mirrored_symbol : SCH_COMPONENT := {|
  comp_Pos := mkPoint 1000 2000;
  comp_transform := mkTransform 1 0 0 (-1);
  comp_unit := 1; comp_unitCount := 1
|}.

(** A value field owned by [mirrored_symbol]. *)
Definition field_of_symbol (text : string) : SCH_FIELD := {|
  m_Parent := Some (ItemComponent mirrored_symbol); m_Layer := 0;
  m_forceVisible := false; m_id := 1;
  m_name := "Value"; m_text := text; m_textPos := mkPoint 1000 2100;
  m_textAngle := 0; m_textSize := mkPoint 50 50; m_thickness := 0;
  m_visible := true; m_bold := false; m_italic := false;
  m_hjustify := GR_TEXT_HJUSTIFY_CENTER; m_vjustify := GR_TEXT_VJUSTIFY_CENTER;
  m_markupFlags := 0
|}.

(** A text layer that places a box of 100 by 50 units by the justification
    of the text: it starts at the anchor for left/top, is centred on it for
    centre, and ends at it for right/bottom. *)
Definition justified_layer : TextLayer := {|
  GetDefaultLineThickness := 6;
  GetPenSizeForBold := fun w => w / 5;
  Clamp_Text_PenSize := fun pen _ _ => pen;
  GetTextBox := fun t _ _ _ _ =>
    mkRect
      (mkPoint
         (match m_hjustify t with
          | GR_TEXT_HJUSTIFY_LEFT => x (m_textPos t)
          | GR_TEXT_HJUSTIFY_CENTER => x (m_textPos t) - 50
          | GR_TEXT_HJUSTIFY_RIGHT => x (m_textPos t) - 100
          end)
         (match m_vjustify t with
          | GR_TEXT_VJUSTIFY_TOP => y (m_textPos t)
          | GR_TEXT_VJUSTIFY_CENTER => y (m_textPos t) - 25
          | GR_TEXT_VJUSTIFY_BOTTOM => y (m_textPos t) - 50
          end))
      (mkPoint 100 50);
  ExpandTextVars := fun t => m_text t;
  SubReference := fun _ => "A";
  SHEETFILENAME := 1;
  rotate_any := fun px py _ => (px, py);
  GetLayerColor := fun l => LayerColor l;
  Inflate := fun r _ => r;
  Contains := fun _ _ => false;
  ContainsRect := fun _ _ => false;
  Intersects := fun _ _ => false
|}.

(** A centre-justified field "C7" owned by nothing, anchored at (300, 200). *)
Definition field_centre_justified (angle : Z) : SCH_FIELD := {|
  m_Parent := None; m_Layer := 0; m_forceVisible := false; m_id := 0;
  m_name := "Reference"; m_text := "C7"; m_textPos := mkPoint 300 200;
  m_textAngle := angle; m_textSize := mkPoint 50 50; m_thickness := 0;
  m_visible := true; m_bold := false; m_italic := false;
  m_hjustify := GR_TEXT_HJUSTIFY_CENTER; m_vjustify := GR_TEXT_VJUSTIFY_CENTER;
  m_markupFlags := 0
|}.

(** *** Properties of SetPosition / GetPosition *)

Lemma det_of_determinant (t : TRANSFORM) :
  determinant t = 1 \/ determinant t = -1 -> det t = determinant t.
Proof.
  intros H. unfold det, int_sub, int_mul.
  apply wrap_eq_of_eqw.
  - unfold is_int, INT_MIN, INT_MAX, int_bits; simpl. lia.
  - rewrite !wrap_eqw. reflexivity.
Qed.

(** C2.  A field owned by a symbol whose transform is a rotation or a mirror
    (integer matrix of determinant 1 or -1): SetPosition(p) followed by
    GetPosition() gives back p, for every point p with [int] coordinates. *)
Theorem SetPosition_GetPosition_roundtrip
    (f : SCH_FIELD) (c : SCH_COMPONENT) (p : wxPoint) :
  m_Parent f = Some (ItemComponent c) ->
  determinant (comp_transform c) = 1 \/ determinant (comp_transform c) = -1 ->
  is_point p ->
  GetPosition (SetPosition f p) = p.
Proof.
  intros Hpar Hdet [Hx Hy].
  pose proof (det_of_determinant _ Hdet) as Hd.
  unfold GetPosition, SetPosition. rewrite Hpar. simpl. rewrite Hpar. simpl.
  unfold InverseTransform, TransformCoordinate, pt_add, pt_sub. simpl.
  rewrite Hd. unfold determinant in Hdet.
  destruct c as [cp [a b c d] u uc]; destruct cp as [cx cy]; destruct p as [px py].
  simpl in *.
  unfold int_add, int_sub, int_mul, int_neg, int_div.
  destruct Hdet as [Hdet | Hdet]; unfold determinant; simpl; rewrite Hdet;
    rewrite ?Z.quot_1_r, ?quot_minus_one;
    apply wxPoint_eq; simpl; apply wrap_eq_of_eqw; trivial;
    rewrite !wrap_eqw.
  - replace (a * (d * (px - cx) + - b * (py - cy) + cx - cx)
             + b * (- c * (px - cx) + a * (py - cy) + cy - cy) + cx)
      with (px + (a * d - c * b - 1) * (px - cx)) by ring.
    rewrite Hdet. replace (px + (1 - 1) * (px - cx)) with px by ring. reflexivity.
  - replace (c * (d * (px - cx) + - b * (py - cy) + cx - cx)
             + d * (- c * (px - cx) + a * (py - cy) + cy - cy) + cy)
      with (py + (a * d - c * b - 1) * (py - cy)) by ring.
    rewrite Hdet. replace (py + (1 - 1) * (py - cy)) with py by ring. reflexivity.
  - replace (a * (- d * (px - cx) + - - b * (py - cy) + cx - cx)
             + b * (- - c * (px - cx) + - a * (py - cy) + cy - cy) + cx)
      with (px + (- (a * d - c * b) - 1) * (px - cx)) by ring.
    rewrite Hdet. replace (px + (- -1 - 1) * (px - cx)) with px by ring. reflexivity.
  - replace (c * (- d * (px - cx) + - - b * (py - cy) + cx - cx)
             + d * (- - c * (px - cx) + - a * (py - cy) + cy - cy) + cy)
      with (py + (- (a * d - c * b) - 1) * (py - cy)) by ring.
    rewrite Hdet. replace (py + (- -1 - 1) * (py - cy)) with py by ring. reflexivity.
Qed.


(** *** Properties of GetBoundingBox *)

Ltac int_range := unfold is_int, INT_MIN, INT_MAX, int_bits; simpl; lia.

(** Remove the innermost [wrap]s whose argument is visibly in range. *)
Ltac unwrap :=
  repeat match goal with
  | |- context [wrap ?z] =>
      lazymatch z with
      | context [wrap _] => fail
      | _ => rewrite (wrap_small z) by int_range
      end
  end.

(** [b] and [e] are opposite corners of a box that has [q] in its middle, and
    everything is small enough for [int]. *)
Definition opposite (b e q : wxPoint) : Prop :=
  (x b + x e = 2 * x q /\ y b + y e = 2 * y q) /\
  within (2 ^ 28) q /\
  within (2 ^ 28) (mkPoint (x b - x q) (y b - y q)).

Ltac open_opposite :=
  unfold opposite, within in *; cbn [x y] in *; change (2 ^ 28) with 268435456 in *.

Lemma RotateXY_right_angle (rot : Z -> Z -> Z -> Z * Z) (a px py : Z) :
  right_angle a ->
  RotateXY rot px py a =
    if a =? 0 then (px, py)
    else if a =? 900 then (py, int_neg px)
    else if a =? 1800 then (int_neg px, int_neg py)
    else (int_neg py, px).
Proof. intros [-> | [-> | [-> | ->]]]; reflexivity. Qed.

Lemma RotatePoint_opposite (rot : Z -> Z -> Z -> Z * Z) (a : Z) (b e q : wxPoint) :
  right_angle a -> opposite b e q ->
  opposite (RotatePoint rot b q a) (RotatePoint rot e q a) q.
Proof.
  intros Ha H. unfold RotatePoint. rewrite !(RotateXY_right_angle _ _ _ _ Ha).
  destruct b as [bx b_y], e as [ex ey], q as [qx qy]. open_opposite.
  destruct Ha as [-> | [-> | [-> | ->]]]; cbn [Z.eqb Pos.eqb fst snd x y];
    unfold int_add, int_sub, int_neg; unwrap; lia.
Qed.

Lemma MIRROR_opposite (b e q : wxPoint) :
  opposite b e q ->
  opposite (mkPoint (x b) (MIRROR (y b) (y q))) (mkPoint (x e) (MIRROR (y e) (y q))) q.
Proof.
  intros H. destruct b as [bx b_y], e as [ex ey], q as [qx qy]. open_opposite.
  unfold MIRROR, int_add, int_sub, int_neg. unwrap. lia.
Qed.

Lemma TransformCoordinate_identity (p : wxPoint) :
  is_point p -> TransformCoordinate (mkTransform 1 0 0 1) p = p.
Proof.
  intros [Hx Hy]. destruct p as [px py]. cbn [x y] in *.
  unfold TransformCoordinate, int_add, int_mul. cbn [x y x1 y1 x2 y2].
  unfold is_int, INT_MIN, INT_MAX, int_bits in *. simpl in Hx, Hy.
  apply wxPoint_eq; cbn [x y]; unwrap; lia.
Qed.

Lemma opposite_is_point (b e q : wxPoint) :
  opposite b e q -> is_point b /\ is_point e.
Proof.
  intros H. destruct b as [bx b_y], e as [ex ey], q as [qx qy]. open_opposite.
  unfold is_point, is_int, INT_MIN, INT_MAX, int_bits. simpl. lia.
Qed.

(** The rectangle spanned by two opposite corners, moved by [o] and
    normalised, has its centre at the middle point moved by [o]. *)
Lemma Centre_of_opposite (r : EDA_RECT) (b e q o : wxPoint) :
  opposite b e q -> within (2 ^ 28) o ->
  Centre (Normalize (Move (SetEnd (SetOrigin r b) e) o)) =
  mkPoint (x q + x o) (y q + y o).
Proof.
  intros H Ho. destruct b as [bx b_y], e as [ex ey], q as [qx qy], o as [ox oy].
  open_opposite.
  unfold Centre, Normalize, Move, SetEnd, SetOrigin, pt_add, int_add, int_sub.
  cbn [x y m_Pos m_Size].
  rewrite (wrap_small (ey - b_y)), (wrap_small (ex - bx)) by int_range.
  destruct (Z.ltb_spec (ey - b_y) 0); cbn [x y m_Pos m_Size];
    destruct (Z.ltb_spec (ex - bx) 0); cbn [x y m_Pos m_Size];
    unfold int_neg, int_sub, int_shr; rewrite !Z.shiftr_div_pow2 by lia;
    change (2 ^ 1) with 2;
    repeat match goal with
    | |- context [wrap ?z] =>
        lazymatch z with
        | context [wrap _] => fail
        | _ => rewrite (wrap_small z)
                 by (unfold is_int, INT_MIN, INT_MAX, int_bits; simpl;
                     Z.div_mod_to_equations; lia)
        end
    end;
    apply wxPoint_eq; cbn [x y]; Z.div_mod_to_equations; lia.
Qed.

Section BoundingBox.
Context `{TL : TextLayer}.

(** C1 (as amended).  Text angle 0, 90, 180 or 270 degrees, no transform
    applied by the owner, and a text box that GetTextBox returns centred on
    the anchor: the centre of the bounding box is the anchor.  Coordinates
    are bounded by [coord_limit] so that no [int] operation overflows. *)
Theorem GetBoundingBox_centre_of_centred_box (f : SCH_FIELD) :
  right_angle (GetTextAngle f) ->
  parent_transform_is_identity f ->
  centred_on (field_text_box f) (GetTextPos f) ->
  within coord_limit (GetTextPos f) ->
  within coord_limit (GetParentPosition f) ->
  within coord_limit (GetOrigin (field_text_box f)) ->
  Centre (GetBoundingBox f) = GetTextPos f.
Proof.
  intros Hang Hid Hc Htp Hpp Hbo.
  unfold GetBoundingBox. fold (field_text_box f).
  set (o := GetParentPosition f) in *.
  set (q := pt_sub (GetTextPos f) o).
  assert (Hop : opposite (pt_sub (GetOrigin (field_text_box f)) o)
                         (pt_sub (GetEnd (field_text_box f)) o) q).
  { subst q. unfold centred_on, within, coord_limit in *.
    destruct (GetTextPos f) as [tx ty], o as [ox oy],
      (GetOrigin (field_text_box f)) as [bx b_y], (GetEnd (field_text_box f)) as [ex ey].
    unfold pt_sub, int_sub. open_opposite. change (2 ^ 26) with 67108864 in *.
    unwrap. lia. }
  assert (Hq : mkPoint (x q + x o) (y q + y o) = GetTextPos f).
  { subst q. unfold within, coord_limit in *.
    destruct (GetTextPos f) as [tx ty], o as [ox oy].
    unfold pt_sub, int_sub. cbn [x y] in *. change (2 ^ 26) with 67108864 in *.
    unwrap. f_equal; lia. }
  assert (Ho : within (2 ^ 28) o).
  { unfold within, coord_limit in *. change (2 ^ 26) with 67108864 in *.
    change (2 ^ 28) with 268435456. lia. }
  apply (RotatePoint_opposite rotate_any _ _ _ _ Hang) in Hop.
  unfold parent_transform_is_identity in Hid.
  destruct (is_component (m_Parent f)) as [c|].
  - rewrite Hid. apply MIRROR_opposite in Hop.
    destruct (opposite_is_point _ _ _ Hop) as [Hb He].
    unfold identity_transform. rewrite !TransformCoordinate_identity by assumption.
    rewrite (Centre_of_opposite _ _ _ q o Hop Ho). exact Hq.
  - destruct (opposite_is_point _ _ _ Hop) as [Hb He].
    rewrite !TransformCoordinate_identity by assumption.
    rewrite (Centre_of_opposite _ _ _ q o Hop Ho). exact Hq.
Qed.

(** *** Void fields *)

(** C3.  IsVoid() holds exactly when the text has length zero, and a void
    field is never hit (by a point or by a rectangle) and prints nothing:
    the device context is left as it was. *)
Theorem IsVoid_excludes_field (f : SCH_FIELD) :
  (IsVoid f = true <-> String.length (GetText f) = 0%nat) /\
  (IsVoid f = true ->
     (forall aPosition aAccuracy, HitTest f aPosition aAccuracy = false) /\
     (forall aRect aContained aAccuracy,
         HitTestRect f aRect aContained aAccuracy = false) /\
     (forall aDC aOffset, Print aDC f aOffset = aDC)).
Proof.
  split.
  - unfold IsVoid. apply Nat.eqb_eq.
  - intros Hvoid. repeat split.
    + intros aPosition aAccuracy. unfold HitTest.
      rewrite Hvoid, orb_true_r. reflexivity.
    + intros aRect aContained aAccuracy. unfold HitTestRect.
      rewrite Hvoid, orb_true_r. reflexivity.
    + intros aDC aOffset. unfold Print.
      rewrite Hvoid, orb_true_r. reflexivity.
Qed.

End BoundingBox.

(** The amended C1 at a centre-justified field turned by 90 degrees, in a
    layer that places the box by the justification. *)
Lemma GetBoundingBox_centre_witness :
  Centre (@GetBoundingBox justified_layer (field_centre_justified 900))
  = GetTextPos (field_centre_justified 900).
Proof.
  apply (@GetBoundingBox_centre_of_centred_box justified_layer
           (field_centre_justified 900)).
  - right; left; reflexivity.
  - exact I.
  - split; reflexivity.
  - unfold within, coord_limit; simpl; lia.
  - unfold within, coord_limit; simpl; lia.
  - unfold within, coord_limit; simpl; lia.
Defined.

(** C1 as stated fails: an unrotated, left/top justified field without an
    owner has its box starting at the anchor (300, 200), so the centre of
    the bounding box is (350, 225). *)
Lemma GetBoundingBox_centre_counterexample :
  right_angle (GetTextAngle (field_R1 0)) /\
  parent_transform_is_identity (field_R1 0) /\
  Centre (@GetBoundingBox left_top_layer (field_R1 0)) = mkPoint 350 225 /\
  Centre (@GetBoundingBox left_top_layer (field_R1 0)) <> GetTextPos (field_R1 0).
Proof.
  split; [left; reflexivity|]. split; [exact I|].
  split; [reflexivity|]. discriminate.
Qed.

(** C2 at the mirrored symbol: moving its value field to (10, -20). *)
Lemma SetPosition_GetPosition_witness :
  GetPosition (SetPosition (field_of_symbol "10k") (mkPoint 10 (-20))) = mkPoint 10 (-20).
Proof.
  apply (SetPosition_GetPosition_roundtrip (field_of_symbol "10k") mirrored_symbol).
  - reflexivity.
  - right; reflexivity.
  - split; unfold is_int, INT_MIN, INT_MAX, int_bits; simpl; lia.
Defined.

(** C3 at a symbol's field with empty text. *)
Lemma IsVoid_excludes_field_witness :
  IsVoid (field_of_symbol "") = true /\
  (forall aPosition aAccuracy,
      @HitTest centred_layer (field_of_symbol "") aPosition aAccuracy = false) /\
  (forall aDC aOffset, @Print centred_layer aDC (field_of_symbol "") aOffset = aDC).
Proof.
  split; [reflexivity|].
  destruct (proj2 (@IsVoid_excludes_field centred_layer (field_of_symbol "")) eq_refl)
    as [Hhit [_ Hprint]].
  split; assumption.
Defined.

End SchField.

(** ** common/eda_draw_frame.cpp *)

Module DrawFrame.

(** Maximum size of the find/replace history stacks. *)
Definition FR_HISTORY_LIST_CNT : nat := 10.

(** The settings object, reduced to the members EDA_DRAW_FRAME reads and
    writes (APP_SETTINGS_BASE::m_System, m_Graphics, m_FindReplace, and the
    grid part of the window settings). *)
Record SYSTEM : Type := mkSystem {
  units : Z;
  first_run_shown : Z;
  max_undo_items : Z
}.

Record GRAPHICS : Type := mkGraphics { canvas_type : Z }.

Record FIND_REPLACE : Type := mkFindReplace {
  flags : Z;
  find_string : string;
  replace_string : string;
  find_history : list string;
  replace_history : list string
}.

Record WINDOW_SETTINGS : Type := mkWindow {
  grid_show : bool;
  grid_last_size : Z
}.

Record APP_SETTINGS_BASE : Type := mkSettings {
  m_System : SYSTEM;
  m_Graphics : GRAPHICS;
  m_FindReplace : FIND_REPLACE;
  m_Window : WINDOW_SETTINGS
}.

Record wxFindReplaceData : Type := mkFindReplaceData {
  GetFlags : Z;
  GetFindString : string;
  GetReplaceString : string
}.

(** The handle ::LockFile hands out (a wxSingleInstanceChecker): the name of
    the lock it holds. *)
Record wxSingleInstanceChecker : Type := mkChecker { lock_name : string }.

Record BASE_SCREEN : Type := mkScreen { GetMaxUndoItems : Z }.

Record EDA_DRAW_FRAME : Type := mkFrame {
  m_Ident : Z;                                      (* FRAME_T *)
  m_canvasType : Z;                                 (* GAL_TYPE *)
  m_file_checker : option wxSingleInstanceChecker;
  m_userUnits : Z;
  m_firstRunDialogSetting : Z;
  m_LastGridSizeId : Z;
  m_drawGrid : bool;
  m_currentScreen : option BASE_SCREEN;
  m_findReplaceData : wxFindReplaceData;
  m_findStringHistoryList : list string;
  m_replaceStringHistoryList : list string
}.

Definition set_file_checker (fr : EDA_DRAW_FRAME)
    (c : option wxSingleInstanceChecker) : EDA_DRAW_FRAME :=
  mkFrame (m_Ident fr) (m_canvasType fr) c (m_userUnits fr)
          (m_firstRunDialogSetting fr) (m_LastGridSizeId fr) (m_drawGrid fr)
          (m_currentScreen fr) (m_findReplaceData fr)
          (m_findStringHistoryList fr) (m_replaceStringHistoryList fr).

Definition set_canvas_type (cfg : APP_SETTINGS_BASE) (t : Z) : APP_SETTINGS_BASE :=
  mkSettings (m_System cfg) (mkGraphics t) (m_FindReplace cfg) (m_Window cfg).

(** *** File lock *)

Section Lock.
(** ::LockFile( aFileName ) of lockfile.cpp, which is not among the sources:
    the attempt to take the lock of a document; null when it fails. *)
Variable GlobalLockFile : string -> option wxSingleInstanceChecker.

Definition ReleaseFile (fr : EDA_DRAW_FRAME) : EDA_DRAW_FRAME :=
  set_file_checker fr None.

(** m_file_checker = ::LockFile( aFileName ); return bool( m_file_checker ); *)
Definition LockFile (fr : EDA_DRAW_FRAME) (aFileName : string) : EDA_DRAW_FRAME * bool :=
  let fr' := set_file_checker fr (GlobalLockFile aFileName) in
  (fr', match m_file_checker fr' with Some _ => true | None => false end).

End Lock.

(** *** Canvas type *)

Section Canvas.
(** The enumerators of EDA_DRAW_PANEL_GAL::GAL_TYPE and of FRAME_T are
    declared in headers that are not among the sources; their values are
    parameters. *)
Variables GAL_TYPE_NONE GAL_TYPE_OPENGL GAL_TYPE_CAIRO GAL_TYPE_LAST : Z.
Variables FRAME_SCH FRAME_PCB_EDITOR FRAME_FOOTPRINT_EDITOR FRAME_GERBER : Z.
(** Whether the build defines __WXMAC__. *)
Variable WXMAC : bool.

(** [aKifaceSettings] is what Kiface().KifaceSettings() returns. *)
Definition LoadCanvasTypeSetting (aKifaceSettings : option APP_SETTINGS_BASE) : Z :=
  let canvasType := GAL_TYPE_NONE in
  let canvasType :=
    match aKifaceSettings with
    | Some cfg => canvas_type (m_Graphics cfg)
    | None => canvasType
    end in
  let canvasType :=
    if (canvasType <? GAL_TYPE_NONE) || (GAL_TYPE_LAST <=? canvasType)
    then GAL_TYPE_NONE     (* after wxASSERT( false ) *)
    else canvasType in
  if canvasType =? GAL_TYPE_NONE then
    (if WXMAC then GAL_TYPE_OPENGL else GAL_TYPE_CAIRO)
  else canvasType.

Definition allowed_frames : list Z :=
  [FRAME_SCH; FRAME_PCB_EDITOR; FRAME_FOOTPRINT_EDITOR; FRAME_GERBER].

(** The search loop over allowed_frames[], leaving at the first match. *)
Fixpoint allow_save_loop (ident : Z) (frames : list Z) : bool :=
  match frames with
  | [] => false
  | frame :: rest => if ident =? frame then true else allow_save_loop ident rest
  end.

(** Returns the settings object as left by the call, and the call's result. *)
Definition saveCanvasTypeSetting (fr : EDA_DRAW_FRAME)
    (aKifaceSettings : option APP_SETTINGS_BASE) (aCanvasType : Z)
    : option APP_SETTINGS_BASE * bool :=
  let allow_save := allow_save_loop (m_Ident fr) allowed_frames in
  if negb allow_save then (aKifaceSettings, false)
  else if (aCanvasType <? GAL_TYPE_NONE) || (GAL_TYPE_LAST <=? aCanvasType)
  then (aKifaceSettings, false)     (* after wxASSERT( false ) *)
  else
    let cfg :=
      match aKifaceSettings with
      | Some cfg => Some (set_canvas_type cfg aCanvasType)
      | None => None
      end in
    (cfg, false).

(** A backend the frame can be given: inside the enumeration and not the
    legacy GAL_TYPE_NONE. *)
Definition supported_backend (t : Z) : Prop :=
  GAL_TYPE_NONE <= t < GAL_TYPE_LAST /\ t <> GAL_TYPE_NONE.

Definition platform_default : Z :=
  if WXMAC then GAL_TYPE_OPENGL else GAL_TYPE_CAIRO.

(** The value LoadCanvasTypeSetting starts from: the stored canvas_type, or
    GAL_TYPE_NONE when there is no settings object. *)
Definition stored_canvas_type (aKifaceSettings : option APP_SETTINGS_BASE) : Z :=
  match aKifaceSettings with
  | Some cfg => canvas_type (m_Graphics cfg)
  | None => GAL_TYPE_NONE
  end.

End Canvas.

(** *** Saving the find/replace history *)

(** The copy loop of SaveSettings:
    for( i = 0; i < list.GetCount() && i < FR_HISTORY_LIST_CNT; i++ )
        history.push_back( list[ i ] ); *)
Equations? history_loop (list_ : list string) (i : nat) (history : list string)
    : list string by wf (FR_HISTORY_LIST_CNT - i)%nat lt :=
  history_loop list_ i history
    with decide (i < length list_ /\ i < FR_HISTORY_LIST_CNT)%nat := {
    | left Hlt => history_loop list_ (S i) (history ++ [default "" (list_ !! i)]);
    | right _ => history
    }.
Proof. unfold FR_HISTORY_LIST_CNT in *. lia. Qed.

Section Settings.
(** EDA_BASE_FRAME::SaveSettings and GAL_DISPLAY_OPTIONS::WriteConfig are not
    among the sources. *)
Variable Base_SaveSettings : EDA_DRAW_FRAME -> APP_SETTINGS_BASE -> APP_SETTINGS_BASE.
Variable WriteConfig : EDA_DRAW_FRAME -> WINDOW_SETTINGS -> WINDOW_SETTINGS.

Definition SaveSettings (fr : EDA_DRAW_FRAME) (aCfg : APP_SETTINGS_BASE)
    : APP_SETTINGS_BASE :=
  let aCfg := Base_SaveSettings fr aCfg in
  let sys := m_System aCfg in
  let sys := mkSystem (m_userUnits fr) (m_firstRunDialogSetting fr) (max_undo_items sys) in
  let window := mkWindow (m_drawGrid fr) (m_LastGridSizeId fr) in
  let sys :=
    match m_currentScreen fr with
    | Some screen => mkSystem (units sys) (first_run_shown sys) (GetMaxUndoItems screen)
    | None => sys
    end in
  let window := WriteConfig fr window in
  let find_history := history_loop (m_findStringHistoryList fr) 0 [] in
  let replace_history := history_loop (m_replaceStringHistoryList fr) 0 [] in
  mkSettings sys (m_Graphics aCfg)
    (mkFindReplace (GetFlags (m_findReplaceData fr))
                   (GetFindString (m_findReplaceData fr))
                   (GetReplaceString (m_findReplaceData fr))
                   find_history replace_history)
    window.

End Settings.

(** Sample data. *)

Definition sample_settings (canvas : Z) : APP_SETTINGS_BASE :=
  mkSettings (mkSystem 1 0 30) (mkGraphics canvas)
             (mkFindReplace 0 "" "" [] []) (mkWindow true 0).

Definition sample_frame (ident : Z) : EDA_DRAW_FRAME :=
  mkFrame ident 2 None 1 0 0 true None (mkFindReplaceData 1 "R1" "R2")
          ["R1"; "C1"] ["R2"].

(** *** Properties *)

(** C6.  LockFile returns true exactly when the stored handle is non-null,
    that is when ::LockFile handed out a lock, and false exactly when the
    acquisition failed. *)
Theorem LockFile_reports_acquisition
    (GlobalLockFile : string -> option wxSingleInstanceChecker)
    (fr : EDA_DRAW_FRAME) (aFileName : string) :
  (snd (LockFile GlobalLockFile fr aFileName) = true <->
     m_file_checker (fst (LockFile GlobalLockFile fr aFileName)) <> None) /\
  (snd (LockFile GlobalLockFile fr aFileName) = true <->
     exists checker, GlobalLockFile aFileName = Some checker) /\
  (snd (LockFile GlobalLockFile fr aFileName) = false <->
     GlobalLockFile aFileName = None) /\
  m_file_checker (fst (LockFile GlobalLockFile fr aFileName)) = GlobalLockFile aFileName.
Proof.
  unfold LockFile. simpl.
  destruct (GlobalLockFile aFileName) as [checker|].
  - repeat split; try discriminate; eauto.
  - repeat split; try discriminate; try congruence.
    intros [checker H]. discriminate.
Qed.

Section CanvasProperties.
Variables GAL_TYPE_NONE GAL_TYPE_OPENGL GAL_TYPE_CAIRO GAL_TYPE_LAST : Z.
Variables FRAME_SCH FRAME_PCB_EDITOR FRAME_FOOTPRINT_EDITOR FRAME_GERBER : Z.
Variable WXMAC : bool.

Local Abbreviation Load := (LoadCanvasTypeSetting GAL_TYPE_NONE GAL_TYPE_OPENGL
                          GAL_TYPE_CAIRO GAL_TYPE_LAST WXMAC).
Local Abbreviation stored := (stored_canvas_type GAL_TYPE_NONE).
Local Abbreviation supported := (supported_backend GAL_TYPE_NONE GAL_TYPE_LAST).
Local Abbreviation fallback := (platform_default GAL_TYPE_OPENGL GAL_TYPE_CAIRO WXMAC).
Local Abbreviation save := (saveCanvasTypeSetting GAL_TYPE_NONE GAL_TYPE_LAST
                          FRAME_SCH FRAME_PCB_EDITOR FRAME_FOOTPRINT_EDITOR FRAME_GERBER).
Local Abbreviation allowed := (allowed_frames FRAME_SCH FRAME_PCB_EDITOR
                             FRAME_FOOTPRINT_EDITOR FRAME_GERBER).

(** C5.  With OpenGL and Cairo enumerated strictly between GAL_TYPE_NONE and
    GAL_TYPE_LAST: whatever is stored, LoadCanvasTypeSetting returns a
    supported backend; a stored value outside the enumeration or equal to
    GAL_TYPE_NONE gives the platform default (OpenGL when __WXMAC__ is
    defined, Cairo otherwise); a supported stored value is returned as is. *)
Theorem LoadCanvasTypeSetting_supported (aKifaceSettings : option APP_SETTINGS_BASE) :
  GAL_TYPE_NONE < GAL_TYPE_OPENGL < GAL_TYPE_LAST ->
  GAL_TYPE_NONE < GAL_TYPE_CAIRO < GAL_TYPE_LAST ->
  supported (Load aKifaceSettings) /\
  (stored aKifaceSettings < GAL_TYPE_NONE \/
   GAL_TYPE_LAST <= stored aKifaceSettings \/
   stored aKifaceSettings = GAL_TYPE_NONE ->
     Load aKifaceSettings = fallback) /\
  (supported (stored aKifaceSettings) ->
     Load aKifaceSettings = stored aKifaceSettings).
Proof.
  intros Hgl Hcairo.
  unfold LoadCanvasTypeSetting, supported_backend, platform_default.
  fold (stored aKifaceSettings).
  generalize (stored aKifaceSettings) as v. intros v.
  destruct (Z.ltb_spec v GAL_TYPE_NONE) as [Hlt | Hge]; simpl.
  - rewrite Z.eqb_refl. destruct WXMAC; repeat split; try lia; intros; lia.
  - destruct (Z.leb_spec GAL_TYPE_LAST v) as [Hlast | Hin]; simpl.
    + rewrite Z.eqb_refl. destruct WXMAC; repeat split; try lia; intros; lia.
    + destruct (Z.eqb_spec v GAL_TYPE_NONE) as [-> | Hne].
      * destruct WXMAC; repeat split; try lia; intros; lia.
      * repeat split; try lia; intros; lia.
Qed.

Lemma allow_save_loop_elem_of (ident : Z) (frames : list Z) :
  allow_save_loop ident frames = true <-> ident ∈ frames.
Proof.
  induction frames as [|frame rest IH]; simpl.
  - split; [discriminate | intros H; inversion H].
  - rewrite elem_of_cons. destruct (Z.eqb_spec ident frame) as [-> | Hne].
    + split; auto.
    + rewrite IH. split; [auto | intros [H | H]; [contradiction | exact H]].
Qed.

(** C9.  saveCanvasTypeSetting returns false on every path; on the path where
    the frame is one of the allowed ones, the canvas type is inside the
    enumeration and a settings object exists, the value is stored there and
    the result is false all the same. *)
Theorem saveCanvasTypeSetting_returns_false
    (fr : EDA_DRAW_FRAME) (aKifaceSettings : option APP_SETTINGS_BASE)
    (aCanvasType : Z) :
  snd (save fr aKifaceSettings aCanvasType) = false /\
  (forall cfg : APP_SETTINGS_BASE,
     m_Ident fr ∈ allowed ->
     GAL_TYPE_NONE <= aCanvasType < GAL_TYPE_LAST ->
     aKifaceSettings = Some cfg ->
     save fr aKifaceSettings aCanvasType = (Some (set_canvas_type cfg aCanvasType), false) /\
     canvas_type (m_Graphics (set_canvas_type cfg aCanvasType)) = aCanvasType).
Proof.
  split.
  - unfold saveCanvasTypeSetting.
    destruct (allow_save_loop _ _); simpl; [|reflexivity].
    destruct (_ || _); reflexivity.
  - intros cfg Hin Hrange ->. unfold saveCanvasTypeSetting.
    apply allow_save_loop_elem_of in Hin. rewrite Hin. simpl.
    destruct (Z.ltb_spec aCanvasType GAL_TYPE_NONE); [lia|].
    destruct (Z.leb_spec GAL_TYPE_LAST aCanvasType); [lia|].
    simpl. split; reflexivity.
Qed.

End CanvasProperties.

(** C5 with the enumeration NONE = 0, OPENGL = 1, CAIRO = 2, LAST = 3, not
    on macOS, and the out-of-range value 7 stored. *)
Lemma LoadCanvasTypeSetting_witness :
  supported_backend 0 3 (LoadCanvasTypeSetting 0 1 2 3 false (Some (sample_settings 7))) /\
  LoadCanvasTypeSetting 0 1 2 3 false (Some (sample_settings 7)) = 2.
Proof.
  destruct (LoadCanvasTypeSetting_supported 0 1 2 3 false (Some (sample_settings 7)))
    as [Hsup [Hfall _]]; [lia | lia |].
  split; [exact Hsup|].
  apply Hfall. right; left. simpl. lia.
Defined.

(** C9 for the frame numbered 4 among the allowed frames 0, 4, 5 and 10. *)
Lemma saveCanvasTypeSetting_witness :
  saveCanvasTypeSetting 0 3 0 4 5 10 (sample_frame 4) (Some (sample_settings 1)) 2
  = (Some (sample_settings 2), false).
Proof.
  apply (proj2 (saveCanvasTypeSetting_returns_false 0 3 0 4 5 10 (sample_frame 4)
                  (Some (sample_settings 1)) 2) (sample_settings 1)).
  - unfold allowed_frames. set_solver.
  - lia.
  - reflexivity.
Defined.

Lemma history_loop_spec (list_ : list string) (i : nat) (history : list string) :
  history_loop list_ i history
  = history ++ take (FR_HISTORY_LIST_CNT - i) (drop i list_).
Proof.
  funelim (history_loop list_ i history).
  - rewrite H. destruct Hlt as [Hlen Hcnt].
    destruct (lookup_lt_is_Some_2 list_ i Hlen) as [s Hs].
    rewrite Hs. simpl.
    rewrite (drop_S list_ s i Hs).
    replace (FR_HISTORY_LIST_CNT - i)%nat with (S (FR_HISTORY_LIST_CNT - S i)) by lia.
    simpl. rewrite <- app_assoc. reflexivity.
  - destruct (decide (i < length list_)%nat) as [Hlen | Hlen].
    + replace (FR_HISTORY_LIST_CNT - i)%nat with 0%nat by lia.
      simpl. rewrite app_nil_r. reflexivity.
    + rewrite drop_ge by lia. rewrite take_nil, app_nil_r. reflexivity.
Qed.

(** C10.  After SaveSettings the saved find and replace histories are the
    first FR_HISTORY_LIST_CNT entries of the in-memory lists, in order:
    min(10, length) entries each, never more than ten. *)
Theorem SaveSettings_history_truncated
    (Base_SaveSettings : EDA_DRAW_FRAME -> APP_SETTINGS_BASE -> APP_SETTINGS_BASE)
    (WriteConfig : EDA_DRAW_FRAME -> WINDOW_SETTINGS -> WINDOW_SETTINGS)
    (fr : EDA_DRAW_FRAME) (aCfg : APP_SETTINGS_BASE) :
  let saved := m_FindReplace (SaveSettings Base_SaveSettings WriteConfig fr aCfg) in
  find_history saved = take FR_HISTORY_LIST_CNT (m_findStringHistoryList fr) /\
  replace_history saved = take FR_HISTORY_LIST_CNT (m_replaceStringHistoryList fr) /\
  length (find_history saved)
    = Nat.min FR_HISTORY_LIST_CNT (length (m_findStringHistoryList fr)) /\
  length (replace_history saved)
    = Nat.min FR_HISTORY_LIST_CNT (length (m_replaceStringHistoryList fr)) /\
  (length (find_history saved) <= 10)%nat /\
  (length (replace_history saved) <= 10)%nat.
Proof.
  unfold SaveSettings. cbn [m_FindReplace find_history replace_history].
  rewrite !history_loop_spec. rewrite !drop_0, !Nat.sub_0_r. simpl app.
  rewrite !length_take. unfold FR_HISTORY_LIST_CNT.
  repeat split; lia.
Qed.

End DrawFrame.

(** ** include/settings/settings_manager.h *)

Module SettingsManager.
Import CInt.

(** *** Version strings *)

Definition is_digit (c : ascii) : bool :=
  (48 <=? nat_of_ascii c)%nat && (nat_of_ascii c <=? 57)%nat.

Definition digit_value (c : ascii) : Z := Z.of_nat (nat_of_ascii c) - 48.

(** Decimal value of a string of digits, most significant first. *)
Fixpoint parse_digits (s : string) (acc : Z) : option Z :=
  match s with
  | EmptyString => Some acc
  | String c rest =>
      if is_digit c then parse_digits rest (10 * acc + digit_value c) else None
  end.

(** A non-empty string of digits whose value an [int] can hold. *)
Definition parse_number (s : string) : option Z :=
  match s with
  | EmptyString => None
  | _ =>
      match parse_digits s 0 with
      | Some v => if v <=? INT_MAX then Some v else None
      | None => None
      end
  end.

(** The parts before and after the first "." of a string. *)
Fixpoint split_at_dot (s : string) : option (string * string) :=
  match s with
  | EmptyString => None
  | String c rest =>
      if Ascii.eqb c "."%char then Some (EmptyString, rest)
      else
        match split_at_dot rest with
        | Some (first, second) => Some (String c first, second)
        | None => None
        end
  end.

(** Modelled from the spec: the body of SETTINGS_MANAGER::extractVersion is in
    settings_manager.cpp, which is not among the sources.  The declaration
    says: the string is split at the "."; aMajor stores the first part and
    aMinor the second; the result tells whether extraction succeeded.  Here
    [None] is the result false, and [Some (major, minor)] is the result true
    with the two [int]s stored. *)
Definition extractVersion (aVersionString : string) : option (Z * Z) :=
  match split_at_dot aVersionString with
  | Some (first, second) =>
      match parse_number first, parse_number second with
      | Some aMajor, Some aMinor => Some (aMajor, aMinor)
      | _, _ => None
      end
  | None => None
  end.

(** Modelled from the spec: the body of SETTINGS_MANAGER::compareVersions is
    in settings_manager.cpp, which is not among the sources.  The declaration
    says: -1 if aFirst is older than aSecond, 1 if aFirst is newer, 0
    otherwise; the specification says the order is that of the numeric
    (major, minor) pairs.  What is returned for a string that is not a
    version is not stated; it is the argument [on_bad_input]. *)
Definition compareVersions (on_bad_input : Z) (aFirst aSecond : string) : Z :=
  match extractVersion aFirst, extractVersion aSecond with
  | Some (a_maj, a_min), Some (b_maj, b_min) =>
      if a_maj <? b_maj then -1
      else if b_maj <? a_maj then 1
      else if a_min <? b_min then -1
      else if b_min <? a_min then 1
      else 0
  | _, _ => on_bad_input
  end.

(** Vocabulary for the statements: a number given by its decimal digits. *)
Definition digit_char (d : nat) : ascii := ascii_of_nat (48 + d).

Definition digits_string (ds : list nat) : string :=
  fold_right (fun d s => String (digit_char d) s) EmptyString ds.

Definition digits_value (ds : list nat) : Z :=
  fold_left (fun acc d => 10 * acc + Z.of_nat d) ds 0.

(** A non-empty list of decimal digits that denotes an [int]. *)
Definition decimal (ds : list nat) : Prop :=
  ds <> [] /\ Forall (fun d => (d < 10)%nat) ds /\ digits_value ds <= INT_MAX.

(** The version string "major.minor". *)
Definition version_string (major minor : list nat) : string :=
  digits_string major +:+ "." +:+ digits_string minor.

(** The order of pairs: first components, then second components. *)
Definition compare_pairs (a b : Z * Z) : Z :=
  match fst a ?= fst b with
  | Lt => -1
  | Gt => 1
  | Eq => match snd a ?= snd b with Lt => -1 | Gt => 1 | Eq => 0 end
  end.

(** *** Settings directories *)

(** The process environment: the variables that are set, with their values. *)
Abbreviation environment := (gmap string string) (only parsing).

(** What the platform contributes: wxStandardPaths::GetUserConfigDir() and
    whether this is a Linux build. *)
Record platform : Type := mkPlatform {
  GetUserConfigDir : string;
  is_linux : bool
}.

Definition AppendDir (path dir : string) : string := path +:+ "/" +:+ dir.

Definition platform_config_dir (p : platform) : string :=
  if is_linux p then AppendDir (GetUserConfigDir p) ".config" else GetUserConfigDir p.

(** Modelled from the spec: the body of
    SETTINGS_MANAGER::calculateUserSettingsPath is in settings_manager.cpp,
    which is not among the sources.  The declaration gives the order of
    precedence of the base path: the value of KICAD_CONFIG_HOME (preferred
    when aUseEnv is true), the value of XDG_CONFIG_HOME, then
    wxStandardPaths::GetUserConfigDir() with ".config" appended on Linux. *)
Definition user_settings_base (env : environment) (p : platform) (aUseEnv : bool)
    : string :=
  match (if aUseEnv then env !! "KICAD_CONFIG_HOME" else None) with
  | Some kicad_config_home => kicad_config_home
  | None =>
      match env !! "XDG_CONFIG_HOME" with
      | Some xdg_config_home => xdg_config_home
      | None => platform_config_dir p
      end
  end.

(** Modelled from the spec: as above; aIncludeVer appends the settings
    version ([GetSettingsVersion], a string such as "5.1") to the base. *)
Definition calculateUserSettingsPath (env : environment) (p : platform)
    (GetSettingsVersion : string) (aIncludeVer aUseEnv : bool) : string :=
  let base := user_settings_base env p aUseEnv in
  if aIncludeVer then AppendDir base GetSettingsVersion else base.

(** Modelled from the spec: GetUserSettingsPath is calculateUserSettingsPath
    with its default arguments (both true). *)
Definition GetUserSettingsPath (env : environment) (p : platform)
    (GetSettingsVersion : string) : string :=
  calculateUserSettingsPath env p GetSettingsVersion true true.

(** The file system, as far as the settings manager looks at it: for every
    directory that exists, the names of the files in it. *)
Abbreviation file_system := (gmap string (gset string)) (only parsing).

Definition directory_entries (fs : file_system) (dir : string) : gset string :=
  default ∅ (fs !! dir).

Definition add_file (fs : file_system) (dir name : string) : file_system :=
  <[dir := {[name]} ∪ directory_entries fs dir]> fs.

Definition remove_file (fs : file_system) (dir name : string) : file_system :=
  <[dir := directory_entries fs dir ∖ {[name]}]> fs.

Definition marker_file : string := "kicad_common".

(** Modelled from the spec: the body of SETTINGS_MANAGER::IsSettingsPathValid
    is in settings_manager.cpp, which is not among the sources.  The
    declaration says: it just checks if a file called "kicad_common" exists
    in the path. *)
Definition IsSettingsPathValid (fs : file_system) (aPath : string) : bool :=
  bool_decide (marker_file ∈ directory_entries fs aPath).

(** *** Properties of the version comparison *)

Lemma digit_char_facts (d : nat) :
  (d < 10)%nat ->
  is_digit (digit_char d) = true /\
  digit_value (digit_char d) = Z.of_nat d /\
  Ascii.eqb (digit_char d) "."%char = false.
Proof.
  intros Hd.
  do 10 (destruct d as [|d]; [repeat split; vm_compute; reflexivity|]). lia.
Qed.

Lemma parse_digits_digits_string (ds : list nat) (acc : Z) :
  Forall (fun d => (d < 10)%nat) ds ->
  parse_digits (digits_string ds) acc
  = Some (fold_left (fun acc d => 10 * acc + Z.of_nat d) ds acc).
Proof.
  intros Hds. revert acc.
  induction Hds as [|d ds Hd _ IH]; intros acc; [reflexivity|].
  cbn [digits_string fold_right parse_digits fold_left].
  destruct (digit_char_facts d Hd) as [Hdig [Hval _]].
  rewrite Hdig, Hval. apply IH.
Qed.

Lemma parse_number_digits_string (ds : list nat) :
  decimal ds -> parse_number (digits_string ds) = Some (digits_value ds).
Proof.
  intros [Hne [Hds Hmax]]. unfold parse_number.
  rewrite (parse_digits_digits_string ds 0 Hds). fold (digits_value ds).
  destruct ds as [|d ds]; [contradiction|]. cbn [digits_string fold_right].
  destruct (Z.leb_spec (digits_value (d :: ds)) INT_MAX); [reflexivity | lia].
Qed.

Lemma split_at_dot_version_string (major minor : list nat) :
  Forall (fun d => (d < 10)%nat) major ->
  split_at_dot (version_string major minor)
  = Some (digits_string major, digits_string minor).
Proof.
  unfold version_string.
  induction 1 as [|d ds Hd _ IH]; [reflexivity|].
  change (split_at_dot (String (digit_char d)
                          (digits_string ds +:+ "." +:+ digits_string minor))
          = Some (String (digit_char d) (digits_string ds), digits_string minor)).
  cbn [split_at_dot].
  destruct (digit_char_facts d Hd) as [_ [_ Hdot]].
  rewrite Hdot, IH. reflexivity.
Qed.

Lemma extractVersion_version_string (major minor : list nat) :
  decimal major -> decimal minor ->
  extractVersion (version_string major minor)
  = Some (digits_value major, digits_value minor).
Proof.
  intros HM Hm. unfold extractVersion.
  rewrite split_at_dot_version_string by apply HM.
  rewrite (parse_number_digits_string _ HM), (parse_number_digits_string _ Hm).
  reflexivity.
Qed.

(** C4.  For version strings "major.minor" (each part a non-empty run of
    decimal digits that fits an [int]), compareVersions is the order of the
    numeric pairs (major, minor): -1 when the first is smaller, 1 when it is
    larger, 0 when the pairs are equal.  In particular "5.1" is older than
    "5.99" and "6.0" is newer than "5.99". *)
Theorem compareVersions_numeric_order
    (on_bad_input : Z) (major1 minor1 major2 minor2 : list nat) :
  decimal major1 -> decimal minor1 -> decimal major2 -> decimal minor2 ->
  compareVersions on_bad_input (version_string major1 minor1)
                               (version_string major2 minor2)
  = compare_pairs (digits_value major1, digits_value minor1)
                  (digits_value major2, digits_value minor2)
  /\ compareVersions on_bad_input "5.1" "5.99" = -1
  /\ compareVersions on_bad_input "6.0" "5.99" = 1
  /\ compareVersions on_bad_input "5.10" "5.9" = 1
  /\ compareVersions on_bad_input "5.99" "5.99" = 0.
Proof.
  intros H1 H1' H2 H2'.
  split; [|split; [|split; [|split]]; vm_compute; reflexivity].
  unfold compareVersions, compare_pairs.
  rewrite !extractVersion_version_string by assumption. cbn [fst snd].
  destruct (Z.compare_spec (digits_value major1) (digits_value major2)) as [He | Hl | Hg].
  - rewrite He, Z.ltb_irrefl.
    destruct (Z.compare_spec (digits_value minor1) (digits_value minor2)) as [He' | Hl' | Hg'].
    + rewrite He', Z.ltb_irrefl. reflexivity.
    + apply Z.ltb_lt in Hl'. rewrite Hl'. reflexivity.
    + destruct (Z.ltb_spec (digits_value minor1) (digits_value minor2)); [lia|].
      apply Z.ltb_lt in Hg'. rewrite Hg'. reflexivity.
  - apply Z.ltb_lt in Hl. rewrite Hl. reflexivity.
  - destruct (Z.ltb_spec (digits_value major1) (digits_value major2)); [lia|].
    apply Z.ltb_lt in Hg. rewrite Hg. reflexivity.
Qed.

Lemma decimal_intro (ds : list nat) :
  ds <> [] -> forallb (fun d => (d <? 10)%nat) ds = true ->
  (digits_value ds <=? INT_MAX) = true -> decimal ds.
Proof.
  intros Hne Hall Hmax. split; [exact Hne|]. split.
  - apply Forall_forall. intros d Hd.
    rewrite forallb_forall in Hall. apply Nat.ltb_lt, Hall.
    apply list_elem_of_In, Hd.
  - apply Z.leb_le, Hmax.
Qed.

(** C4 at "5.1" against "5.99". *)
Lemma compareVersions_witness :
  compareVersions (-1) (version_string [5%nat] [1%nat])
                       (version_string [5%nat] [9%nat; 9%nat]) = -1.
Proof.
  refine (eq_trans
    (proj1 (compareVersions_numeric_order (-1) [5%nat] [1%nat] [5%nat] [9%nat; 9%nat]
              _ _ _ _)) _);
    try (apply decimal_intro; [discriminate | reflexivity | vm_compute; reflexivity]).
  vm_compute. reflexivity.
Defined.

(** *** Properties of the settings directories *)






Lemma directory_entries_add_file (fs : file_system) (dir name : string) :
  directory_entries (add_file fs dir name) dir = {[name]} ∪ directory_entries fs dir.
Proof. unfold add_file, directory_entries at 1. rewrite lookup_insert_eq. reflexivity. Qed.

Lemma directory_entries_remove_file (fs : file_system) (dir name : string) :
  directory_entries (remove_file fs dir name) dir = directory_entries fs dir ∖ {[name]}.
Proof. unfold remove_file, directory_entries at 1. rewrite lookup_insert_eq. reflexivity. Qed.

Lemma directory_entries_other_dir (fs : file_system) (dir dir' : string)
    (entries : gset string) :
  dir' <> dir -> directory_entries (<[dir' := entries]> fs) dir = directory_entries fs dir.
Proof. intros Hne. unfold directory_entries. rewrite lookup_insert_ne by exact Hne. reflexivity. Qed.

(** C8.  IsSettingsPathValid is true exactly when the directory holds a file
    named "kicad_common".  Nothing else matters: two file systems that agree
    on the presence of that file in the directory give the same answer, and
    so does adding or removing any other file there, or changing any other
    directory. *)
Theorem IsSettingsPathValid_marker_only (fs : file_system) (aPath : string) :
  (IsSettingsPathValid fs aPath = true <->
     "kicad_common" ∈ directory_entries fs aPath) /\
  (forall fs' : file_system,
     ("kicad_common" ∈ directory_entries fs aPath <->
      "kicad_common" ∈ directory_entries fs' aPath) ->
     IsSettingsPathValid fs' aPath = IsSettingsPathValid fs aPath) /\
  (forall name : string, name <> "kicad_common" ->
     IsSettingsPathValid (add_file fs aPath name) aPath = IsSettingsPathValid fs aPath /\
     IsSettingsPathValid (remove_file fs aPath name) aPath = IsSettingsPathValid fs aPath) /\
  (forall (dir : string) (entries : gset string), dir <> aPath ->
     IsSettingsPathValid (<[dir := entries]> fs) aPath = IsSettingsPathValid fs aPath).
Proof.
  unfold IsSettingsPathValid, marker_file. split; [|split; [|split]].
  - split; [apply bool_decide_eq_true_1 | apply bool_decide_eq_true_2].
  - intros fs' Hiff. apply bool_decide_ext. symmetry. exact Hiff.
  - intros name Hname. split; apply bool_decide_ext.
    + rewrite directory_entries_add_file, elem_of_union, elem_of_singleton.
      split; [intros [Heq | Hin]; [congruence | exact Hin] | auto].
    + rewrite directory_entries_remove_file, elem_of_difference, elem_of_singleton.
      split; [intros [Hin _]; exact Hin | intros Hin; split; [exact Hin | congruence]].
  - intros dir entries Hne. apply bool_decide_ext.
    rewrite directory_entries_other_dir by exact Hne. reflexivity.
Qed.

(** C8 on a directory that holds the marker next to another file. *)
Lemma IsSettingsPathValid_witness :
  IsSettingsPathValid
    (add_file (<["/cfg/5.1" := {["kicad_common"]}]> ∅) "/cfg/5.1" "pcbnew")
    "/cfg/5.1"
  = IsSettingsPathValid (<["/cfg/5.1" := {["kicad_common"]}]> ∅) "/cfg/5.1".
Proof.
  apply (proj1 (proj1 (proj2 (proj2 (IsSettingsPathValid_marker_only
           (<["/cfg/5.1" := {["kicad_common"]}]> ∅) "/cfg/5.1"))) "pcbnew"
           ltac:(discriminate))).
Defined.

End SettingsManager.

(** ** More of eeschema/sch_field.cpp: pen size, plotting, rotation, names
    and the ordering of fields *)

Module FieldOps.
Import CInt Geometry SchField.

(** wxString's [<]: the lexical order of the character codes. *)
Definition wxString_lt (a b : string) : bool :=
  match OrdersEx.String_as_OT.compare a b with
  | Lt => true
  | _ => false
  end.

Section Ops.
Context `{TL : TextLayer}.
(** TEMPLATE_FIELDNAME::GetDefaultFieldName and SCH_SHEET::GetDefaultFieldName
    are not among the sources. *)
Variable DefaultFieldName : Z -> string.
Variable SheetDefaultFieldName : Z -> string.
(** The default of GetName's argument, declared in sch_field.h. *)
Variable aUseDefaultName_default : bool.

Definition GetPenSize (f : SCH_FIELD) : Z :=
  let pensize := GetThickness f in
  let pensize :=
    if pensize =? 0 then
      (if IsBold f then GetPenSizeForBold (GetTextWidth f) else GetDefaultLineThickness)
    else pensize in
  Clamp_Text_PenSize pensize (GetTextSize f) (IsBold f).

(** The plotter is the list of the Text calls it has received, together with
    the colour its colour settings give to a layer. *)
Definition Plot (plotter_color : Z -> COLOR4D) (aPlotter : list GRText_call)
    (f : SCH_FIELD) : list GRText_call :=
  let color := plotter_color (m_Layer f) in
  if negb (IsVisible f) then aPlotter
  else if IsVoid f then aPlotter
  else
    let orient := GetTextAngle f in
    let orient :=
      match is_component (m_Parent f) with
      | Some parentComponent =>
          if negb (y1 (comp_transform parentComponent) =? 0) then
            (if orient =? TEXT_ANGLE_HORIZ then TEXT_ANGLE_VERT else TEXT_ANGLE_HORIZ)
          else orient
      | None => orient
      end in
    let BoundaryBox := GetBoundingBox f in
    let textpos := Centre BoundaryBox in
    let thickness := GetPenSize f in
    aPlotter ++ [mkGRText textpos color (GetShownText f) orient (GetTextSize f)
                   GR_TEXT_HJUSTIFY_CENTER GR_TEXT_VJUSTIFY_CENTER thickness
                   (IsItalic f) (IsBold f)].

Definition Rotate (f : SCH_FIELD) (aPosition : wxPoint) : SCH_FIELD :=
  let pt := GetTextPos f in
  let pt := RotatePoint rotate_any pt aPosition 900 in
  SetTextPos f pt.

Definition GetName (f : SCH_FIELD) (aUseDefaultName : bool) : string :=
  if negb (String.eqb (m_name f) "") then m_name f
  else if aUseDefaultName then
    match m_Parent f with
    | Some (ItemComponent _) => DefaultFieldName (m_id f)
    | Some (ItemSheet _) => SheetDefaultFieldName (m_id f)
    | _ => ""
    end
  else "".

(** GetLibPosition() is EDA_TEXT::GetTextPos(). *)
Definition GetLibPosition (f : SCH_FIELD) : wxPoint := GetTextPos f.

(** operator<( aItem ) for an [aItem] that is itself a SCH_FIELD (so that the
    two Type() are equal and the first test does not decide). *)
Definition field_less (f field : SCH_FIELD) : bool :=
  if negb (m_id f =? m_id field) then m_id f <? m_id field
  else if negb (String.eqb (GetText f) (GetText field))
  then wxString_lt (GetText f) (GetText field)
  else if negb (x (GetLibPosition f) =? x (GetLibPosition field))
  then x (GetLibPosition f) <? x (GetLibPosition field)
  else if negb (y (GetLibPosition f) =? y (GetLibPosition field))
  then y (GetLibPosition f) <? y (GetLibPosition field)
  else wxString_lt (GetName f aUseDefaultName_default)
                   (GetName field aUseDefaultName_default).

End Ops.

(** Translating a symbol together with one of its fields by [d]. *)
Definition translate_with_symbol (f : SCH_FIELD) (c : SCH_COMPONENT) (d : wxPoint)
    : SCH_FIELD :=
  mkField
    (Some (ItemComponent (mkComponent (pt_add (comp_Pos c) d) (comp_transform c)
                                      (comp_unit c) (comp_unitCount c))))
    (m_Layer f) (m_forceVisible f) (m_id f) (m_name f) (m_text f)
    (pt_add (m_textPos f) d) (m_textAngle f) (m_textSize f) (m_thickness f)
    (m_visible f) (m_bold f) (m_italic f) (m_hjustify f) (m_vjustify f)
    (m_markupFlags f).

(** *** Rotation and position *)

Ltac by_congruence :=
  apply wrap_eq_of_eqw; [assumption |];
  rewrite !wrap_eqw;
  match goal with |- eqw ?E ?v => replace E with v by ring end;
  reflexivity.

Lemma SetTextPos_same (f : SCH_FIELD) : SetTextPos f (GetTextPos f) = f.
Proof. destruct f; reflexivity. Qed.

Lemma RotatePoint_900 (rot : Z -> Z -> Z -> Z * Z) (p c : wxPoint) :
  RotatePoint rot p c 900
  = mkPoint (int_add (int_sub (y p) (y c)) (x c))
            (int_add (int_neg (int_sub (x p) (x c))) (y c)).
Proof. reflexivity. Qed.

(** [wrap] is kept folded while rewriting modulo 2^32. *)
Local Opaque wrap.

Section OpsProperties.
Context `{TL : TextLayer}.

(** Four quarter turns about the same point bring a field back where it was,
    and a quarter turn about the field's own anchor does not move it. *)
Theorem Rotate_four_times (f : SCH_FIELD) (aPosition : wxPoint) :
  is_point (GetTextPos f) ->
  Rotate (Rotate (Rotate (Rotate f aPosition) aPosition) aPosition) aPosition = f /\
  Rotate f (GetTextPos f) = f.
Proof.
  intros [Hx Hy]. split.
  - destruct f as [? ? ? ? ? ? [tx ty] ? ? ? ? ? ? ? ? ?], aPosition as [cx cy].
    unfold Rotate, SetTextPos, GetTextPos in *.
    cbn [m_Parent m_Layer m_forceVisible m_id m_name m_text m_textPos m_textAngle
         m_textSize m_thickness m_visible m_bold m_italic m_hjustify m_vjustify
         m_markupFlags x y] in *.
    rewrite !RotatePoint_900. cbn [x y].
    f_equal. unfold int_add, int_sub, int_neg.
    apply wxPoint_eq; cbn [x y]; by_congruence.
  - destruct f as [? ? ? ? ? ? [tx ty] ? ? ? ? ? ? ? ? ?].
    unfold Rotate, SetTextPos, GetTextPos in *.
    cbn [m_Parent m_Layer m_forceVisible m_id m_name m_text m_textPos m_textAngle
         m_textSize m_thickness m_visible m_bold m_italic m_hjustify m_vjustify
         m_markupFlags x y] in *.
    rewrite RotatePoint_900. cbn [x y].
    f_equal. unfold int_add, int_sub, int_neg.
    apply wxPoint_eq; cbn [x y]; by_congruence.
Qed.

(** SetPosition( GetPosition() ) changes nothing: for a field of a symbol
    whose transform is a rotation or a mirror, and for any field that is not
    owned by a symbol. *)
Theorem GetPosition_SetPosition_roundtrip (f : SCH_FIELD) :
  is_point (GetTextPos f) ->
  match is_component (m_Parent f) with
  | Some c => determinant (comp_transform c) = 1 \/ determinant (comp_transform c) = -1
  | None => True
  end ->
  SetPosition f (GetPosition f) = f.
Proof.
  intros [Hx Hy] Hdet.
  unfold SetPosition, GetPosition.
  destruct (is_component (m_Parent f)) as [c|]; [|apply SetTextPos_same].
  transitivity (SetTextPos f (GetTextPos f)); [|apply SetTextPos_same]. f_equal.
  pose proof (det_of_determinant _ Hdet) as Hd.
  unfold InverseTransform, TransformCoordinate, pt_add, pt_sub. rewrite Hd.
  unfold determinant in *.
  destruct c as [[cx cy] [a b c d] u uc]. destruct (GetTextPos f) as [tx ty].
  cbn [x y x1 y1 x2 y2 comp_Pos comp_transform] in *.
  unfold int_add, int_sub, int_mul, int_neg, int_div.
  destruct Hdet as [Hdet | Hdet]; rewrite Hdet;
    rewrite ?Z.quot_1_r, ?quot_minus_one;
    apply wxPoint_eq; cbn [x y]; apply wrap_eq_of_eqw; trivial;
    rewrite !wrap_eqw.
  - match goal with |- eqw ?E _ =>
      replace E with (tx + (a * d - c * b - 1) * (tx - cx)) by ring end.
    rewrite Hdet. replace (tx + (1 - 1) * (tx - cx)) with tx by ring. reflexivity.
  - match goal with |- eqw ?E _ =>
      replace E with (ty + (a * d - c * b - 1) * (ty - cy)) by ring end.
    rewrite Hdet. replace (ty + (1 - 1) * (ty - cy)) with ty by ring. reflexivity.
  - match goal with |- eqw ?E _ =>
      replace E with (tx + (- (a * d - c * b) - 1) * (tx - cx)) by ring end.
    rewrite Hdet. replace (tx + (- -1 - 1) * (tx - cx)) with tx by ring. reflexivity.
  - match goal with |- eqw ?E _ =>
      replace E with (ty + (- (a * d - c * b) - 1) * (ty - cy)) by ring end.
    rewrite Hdet. replace (ty + (- -1 - 1) * (ty - cy)) with ty by ring. reflexivity.
Qed.

(** GetPosition follows the symbol: translating a symbol and its field by the
    same vector translates the reported position by that vector, whatever
    the transform. *)
Theorem GetPosition_translate_with_symbol
    (f : SCH_FIELD) (c : SCH_COMPONENT) (d : wxPoint) :
  m_Parent f = Some (ItemComponent c) ->
  GetPosition (translate_with_symbol f c d) = pt_add (GetPosition f) d.
Proof.
  intros Hpar. unfold GetPosition, translate_with_symbol. rewrite Hpar.
  cbn [m_Parent is_component comp_Pos comp_transform m_textPos].
  unfold GetTextPos. cbn [m_textPos].
  destruct c as [[cx cy] [a b c d'] u uc], d as [dx dy].
  destruct (m_textPos f) as [tx ty].
  unfold TransformCoordinate, pt_add, pt_sub, int_add, int_sub, int_mul.
  cbn [x y x1 y1 x2 y2 comp_Pos comp_transform].
  apply wxPoint_eq; cbn [x y]; apply eqw_wrap; rewrite !wrap_eqw;
    match goal with |- eqw ?A ?B => replace A with B by ring end; reflexivity.
Qed.

(** An unrotated field that no symbol owns has, as bounding box, the text box
    of its shown text, normalised. *)
Theorem GetBoundingBox_unrotated (f : SCH_FIELD) :
  is_component (m_Parent f) = None ->
  NORMALIZE_ANGLE_POS (GetTextAngle f) = 0 ->
  is_point (m_Pos (field_text_box f)) ->
  is_point (m_Size (field_text_box f)) ->
  GetBoundingBox f = Normalize (field_text_box f).
Proof.
  intros Hpar Hang [Hpx Hpy] [Hsx Hsy].
  unfold GetBoundingBox. fold (field_text_box f). rewrite Hpar.
  unfold RotatePoint, RotateXY. rewrite Hang. cbn [Z.eqb fst snd].
  f_equal.
  destruct (field_text_box f) as [[bx b_y] [sx sy]].
  destruct (GetParentPosition f) as [ox oy], (GetTextPos f) as [tx ty].
  unfold Move, SetEnd, SetOrigin, TransformCoordinate, GetOrigin, GetEnd,
    pt_add, pt_sub, int_add, int_sub, int_mul.
  cbn [x y x1 y1 x2 y2 m_Pos m_Size] in *.
  f_equal; apply wxPoint_eq; cbn [x y]; by_congruence.
Qed.

Lemma Normalize_size (r : EDA_RECT) :
  is_point (m_Size r) ->
  (0 <= x (m_Size (Normalize r)) \/ x (m_Size (Normalize r)) = INT_MIN) /\
  (0 <= y (m_Size (Normalize r)) \/ y (m_Size (Normalize r)) = INT_MIN).
Proof.
  assert (Hneg : forall s, is_int s -> s < 0 ->
            0 <= int_neg s \/ int_neg s = INT_MIN).
  { intros s Hs Hlt. unfold int_neg.
    destruct (Z.eq_dec s INT_MIN) as [-> | Hne]; [right; vm_compute; reflexivity|].
    left. rewrite wrap_small; unfold is_int, INT_MIN, INT_MAX, int_bits in *;
      simpl in *; lia. }
  intros [Hx Hy]. destruct r as [[px py] [sx sy]]. cbn [x y m_Size] in *.
  unfold Normalize. cbn [x y m_Pos m_Size].
  destruct (Z.ltb_spec sy 0); cbn [x y m_Pos m_Size];
    destruct (Z.ltb_spec sx 0); cbn [x y m_Pos m_Size]; split; auto.
Qed.

(** The rectangle GetBoundingBox returns is always normalised: neither size
    is negative, except that a size of INT_MIN cannot be negated. *)
Theorem GetBoundingBox_normalised (f : SCH_FIELD) :
  (0 <= x (m_Size (GetBoundingBox f)) \/ x (m_Size (GetBoundingBox f)) = INT_MIN) /\
  (0 <= y (m_Size (GetBoundingBox f)) \/ y (m_Size (GetBoundingBox f)) = INT_MIN).
Proof.
  unfold GetBoundingBox.
  destruct (is_component (m_Parent f)); apply Normalize_size;
    split; cbn [Move SetEnd m_Size x y]; apply wrap_is_int.
Qed.

(** For a visible field that is not forced visible, and a plotter whose
    colour settings agree with the screen's layer colour, Plot sends the
    plotter exactly the text call that Print draws at offset (0, 0). *)
Theorem Plot_agrees_with_Print
    (plotter_color : Z -> COLOR4D) (calls : list GRText_call) (f : SCH_FIELD) :
  IsVisible f = true ->
  m_forceVisible f = false ->
  plotter_color (m_Layer f) = GetLayerColor (m_Layer f) ->
  Plot plotter_color calls f = Print calls f (mkPoint 0 0).
Proof.
  intros Hvis Hforce Hcolor. unfold Plot, Print, GetPenSize.
  rewrite Hvis, Hforce, Hcolor. cbn [negb andb orb].
  destruct (IsVoid f); [reflexivity|].
  do 2 f_equal. f_equal.
  unfold Centre, pt_add, int_add. cbn [x y].
  apply wxPoint_eq; cbn [x y]; rewrite Z.add_0_r; symmetry; apply wrap_small, wrap_is_int.
Qed.

(** Whatever can be hit is drawn: a field that HitTest accepts at some point
    is printed, by one text call appended to what was drawn before. *)
Theorem HitTest_implies_printed
    (f : SCH_FIELD) (aPosition : wxPoint) (aAccuracy : Z)
    (aDC : list GRText_call) (aOffset : wxPoint) :
  HitTest f aPosition aAccuracy = true ->
  exists call, Print aDC f aOffset = aDC ++ [call] /\
               gr_pos call = pt_add (Centre (GetBoundingBox f)) aOffset /\
               gr_text call = GetShownText f.
Proof.
  unfold HitTest, Print. intros Hhit.
  destruct (IsVisible f); [|discriminate].
  destruct (IsVoid f); [discriminate|]. cbn [negb andb orb].
  eexists. split; [reflexivity|]. split; reflexivity.
Qed.

End OpsProperties.

Local Transparent wrap.

Lemma Rotate_four_times_witness :
  @Rotate centred_layer
    (@Rotate centred_layer
       (@Rotate centred_layer
          (@Rotate centred_layer (field_R1 0) (mkPoint 7 (-3))) (mkPoint 7 (-3)))
       (mkPoint 7 (-3))) (mkPoint 7 (-3)) = field_R1 0.
Proof.
  apply (@Rotate_four_times centred_layer (field_R1 0) (mkPoint 7 (-3))).
  split; unfold is_int, INT_MIN, INT_MAX, int_bits; simpl; lia.
Defined.

(** A text layer with a working hit test: boxes of 100 by 50 units starting
    at the anchor, inflated on every side, borders included. *)
Definition boxed_layer : TextLayer := {|
  GetDefaultLineThickness := 6;
  GetPenSizeForBold := fun w => w / 5;
  Clamp_Text_PenSize := fun pen _ _ => pen;
  GetTextBox := fun t _ _ _ _ => mkRect (m_textPos t) (mkPoint 100 50);
  ExpandTextVars := fun t => m_text t;
  SubReference := fun _ => "A";
  SHEETFILENAME := 1;
  rotate_any := fun px py _ => (px, py);
  GetLayerColor := fun l => LayerColor l;
  Inflate := fun r a =>
    mkRect (mkPoint (x (m_Pos r) - a) (y (m_Pos r) - a))
           (mkPoint (x (m_Size r) + 2 * a) (y (m_Size r) + 2 * a));
  Contains := fun r p =>
    (x (m_Pos r) <=? x p) && (x p <=? x (m_Pos r) + x (m_Size r)) &&
    (y (m_Pos r) <=? y p) && (y p <=? y (m_Pos r) + y (m_Size r));
  ContainsRect := fun _ _ => false;
  Intersects := fun _ _ => false
|}.

Lemma GetPosition_SetPosition_witness :
  SetPosition (field_of_symbol "10k") (GetPosition (field_of_symbol "10k"))
  = field_of_symbol "10k".
Proof.
  apply (GetPosition_SetPosition_roundtrip (field_of_symbol "10k")).
  - split; unfold is_int, INT_MIN, INT_MAX, int_bits; simpl; lia.
  - right; reflexivity.
Defined.

Lemma GetPosition_translate_witness :
  GetPosition (translate_with_symbol (field_of_symbol "10k") mirrored_symbol (mkPoint 5 (-5)))
  = pt_add (GetPosition (field_of_symbol "10k")) (mkPoint 5 (-5)).
Proof.
  apply (GetPosition_translate_with_symbol (field_of_symbol "10k") mirrored_symbol).
  reflexivity.
Defined.

Lemma GetBoundingBox_unrotated_witness :
  @GetBoundingBox left_top_layer (field_R1 0)
  = Normalize (@field_text_box left_top_layer (field_R1 0)).
Proof.
  apply (@GetBoundingBox_unrotated left_top_layer (field_R1 0)).
  - reflexivity.
  - reflexivity.
  - split; unfold is_int, INT_MIN, INT_MAX, int_bits; simpl; lia.
  - split; unfold is_int, INT_MIN, INT_MAX, int_bits; simpl; lia.
Defined.

Lemma Plot_agrees_with_Print_witness :
  @Plot centred_layer LayerColor [] (field_R1 900)
  = @Print centred_layer [] (field_R1 900) (mkPoint 0 0).
Proof.
  apply (@Plot_agrees_with_Print centred_layer LayerColor [] (field_R1 900));
    reflexivity.
Defined.

Lemma HitTest_implies_printed_witness :
  exists call,
    @Print boxed_layer [] (field_R1 0) (mkPoint 0 0) = [] ++ [call] /\
    gr_pos call = pt_add (Centre (@GetBoundingBox boxed_layer (field_R1 0))) (mkPoint 0 0) /\
    gr_text call = @GetShownText boxed_layer (field_R1 0).
Proof.
  apply (@HitTest_implies_printed boxed_layer (field_R1 0) (mkPoint 310 210) 2).
  vm_compute. reflexivity.
Defined.

(** *** The ordering of fields *)

Lemma wxString_lt_iff (a b : string) :
  wxString_lt a b = true <-> OrdersEx.String_as_OT.lt a b.
Proof.
  unfold wxString_lt, OrdersEx.String_as_OT.lt.
  destruct (OrdersEx.String_as_OT.compare a b); split; congruence.
Qed.

Lemma wxString_lt_irrefl (a : string) : ~ OrdersEx.String_as_OT.lt a a.
Proof. apply (StrictOrder_Irreflexive (R := OrdersEx.String_as_OT.lt)). Qed.

Lemma wxString_lt_trans (a b c : string) :
  OrdersEx.String_as_OT.lt a b -> OrdersEx.String_as_OT.lt b c ->
  OrdersEx.String_as_OT.lt a c.
Proof. apply (StrictOrder_Transitive (R := OrdersEx.String_as_OT.lt)). Qed.

Lemma wxString_lt_total (a b : string) :
  OrdersEx.String_as_OT.lt a b \/ a = b \/ OrdersEx.String_as_OT.lt b a.
Proof.
  destruct (OrdersEx.String_as_OT.compare_spec a b); auto.
Qed.

(** What operator< looks at, in the order it looks at it. *)
Definition key_lt (k1 k2 : Z * string * Z * Z * string) : Prop :=
  let '(id1, text1, px1, py1, name1) := k1 in
  let '(id2, text2, px2, py2, name2) := k2 in
  id1 < id2 \/ (id1 = id2 /\
  (OrdersEx.String_as_OT.lt text1 text2 \/ (text1 = text2 /\
  (px1 < px2 \/ (px1 = px2 /\
  (py1 < py2 \/ (py1 = py2 /\
   OrdersEx.String_as_OT.lt name1 name2))))))).

Ltac string_order :=
  solve [ lia | congruence | assumption
        | exfalso; eapply wxString_lt_irrefl; eassumption
        | eapply wxString_lt_trans; eassumption
        | exfalso; eapply wxString_lt_irrefl; eapply wxString_lt_trans; eassumption ].

Ltac lex_order :=
  first [ string_order
        | left; string_order
        | right; split; [string_order | lex_order] ].

Lemma key_lt_irrefl k : ~ key_lt k k.
Proof.
  destruct k as [[[[id text] px] py] name]. unfold key_lt.
  intros H. repeat (destruct H as [H | [_ H]]; [string_order|]). string_order.
Qed.

Lemma key_lt_trans k1 k2 k3 : key_lt k1 k2 -> key_lt k2 k3 -> key_lt k1 k3.
Proof.
  destruct k1 as [[[[id1 text1] px1] py1] name1],
           k2 as [[[[id2 text2] px2] py2] name2],
           k3 as [[[[id3 text3] px3] py3] name3].
  unfold key_lt. intros H12 H23.
  repeat match goal with
  | H : _ \/ _ |- _ => destruct H
  | H : _ /\ _ |- _ => destruct H
  end; subst; lex_order.
Qed.

Lemma key_lt_total k1 k2 : key_lt k1 k2 \/ k1 = k2 \/ key_lt k2 k1.
Proof.
  destruct k1 as [[[[id1 text1] px1] py1] name1],
           k2 as [[[[id2 text2] px2] py2] name2].
  unfold key_lt.
  destruct (Z.lt_total id1 id2) as [H | [H | H]];
    [left; lex_order | subst | right; right; lex_order].
  destruct (wxString_lt_total text1 text2) as [H | [H | H]];
    [left; lex_order | subst | right; right; lex_order].
  destruct (Z.lt_total px1 px2) as [H | [H | H]];
    [left; lex_order | subst | right; right; lex_order].
  destruct (Z.lt_total py1 py2) as [H | [H | H]];
    [left; lex_order | subst | right; right; lex_order].
  destruct (wxString_lt_total name1 name2) as [H | [H | H]];
    [left; lex_order | subst; right; left; reflexivity | right; right; lex_order].
Qed.

Section Ordering.
Variable DefaultFieldName : Z -> string.
Variable SheetDefaultFieldName : Z -> string.
Variable aUseDefaultName_default : bool.

Local Abbreviation less :=
  (field_less DefaultFieldName SheetDefaultFieldName aUseDefaultName_default).

Definition sort_key (f : SCH_FIELD) : Z * string * Z * Z * string :=
  (m_id f, GetText f, x (GetLibPosition f), y (GetLibPosition f),
   GetName DefaultFieldName SheetDefaultFieldName f aUseDefaultName_default).

Lemma field_less_key_lt (f g : SCH_FIELD) :
  less f g = true <-> key_lt (sort_key f) (sort_key g).
Proof.
  unfold field_less, sort_key, key_lt.
  destruct (Z.eqb_spec (m_id f) (m_id g)) as [Hid | Hid]; cbn [negb].
  2: { rewrite Z.ltb_lt. split; [auto | intros [H | [H _]]; [exact H | contradiction]]. }
  destruct (String.eqb_spec (GetText f) (GetText g)) as [Htext | Htext]; cbn [negb].
  2: { rewrite wxString_lt_iff. split; [auto |].
       intros [H | [_ [H | [H _]]]]; [lia | exact H | contradiction]. }
  destruct (Z.eqb_spec (x (GetLibPosition f)) (x (GetLibPosition g))) as [Hx | Hx];
    cbn [negb].
  2: { rewrite Z.ltb_lt. split; [auto 8 |].
       intros [H | [_ [H | [_ [H | [H _]]]]]];
         [lia | rewrite Htext in H; exfalso; eapply wxString_lt_irrefl; exact H
         | exact H | contradiction]. }
  destruct (Z.eqb_spec (y (GetLibPosition f)) (y (GetLibPosition g))) as [Hy | Hy];
    cbn [negb].
  2: { rewrite Z.ltb_lt. split; [auto 10 |].
       intros [H | [_ [H | [_ [H | [_ [H | [H _]]]]]]]];
         [lia | rewrite Htext in H; exfalso; eapply wxString_lt_irrefl; exact H
         | lia | exact H | contradiction]. }
  rewrite wxString_lt_iff. split; [auto 12 |].
  intros [H | [_ [H | [_ [H | [_ [H | [_ H]]]]]]]];
    [lia | rewrite Htext in H; exfalso; eapply wxString_lt_irrefl; exact H
    | lia | lia | exact H].
Qed.

(** operator< on fields is a strict order: no field is less than itself, the
    relation is transitive and asymmetric; and two fields neither of which
    is less than the other agree on id, text, position and name. *)
Theorem field_less_strict_order :
  (forall f, less f f = false) /\
  (forall f g h, less f g = true -> less g h = true -> less f h = true) /\
  (forall f g, less f g = true -> less g f = false) /\
  (forall f g, less f g = false -> less g f = false -> sort_key f = sort_key g).
Proof.
  split; [|split; [|split]].
  - intros f. apply not_true_is_false. rewrite field_less_key_lt.
    apply key_lt_irrefl.
  - intros f g h. rewrite !field_less_key_lt. apply key_lt_trans.
  - intros f g Hfg. apply not_true_is_false. intros Hgf.
    rewrite field_less_key_lt in Hfg, Hgf.
    exact (key_lt_irrefl _ (key_lt_trans _ _ _ Hfg Hgf)).
  - intros f g Hfg Hgf.
    destruct (key_lt_total (sort_key f) (sort_key g)) as [H | [H | H]];
      [| exact H |]; apply field_less_key_lt in H; congruence.
Qed.

End Ordering.

End FieldOps.

(** ** More of common/eda_draw_frame.cpp: loading settings, the frame's
    destructor, the grid selection box and the toolbars *)

Module FrameOps.
Import CInt DrawFrame.

(** for( auto& s : history ) list.Add( s ); *)
Fixpoint add_history (history : list string) (list_ : list string) : list string :=
  match history with
  | [] => list_
  | s :: rest => add_history rest (list_ ++ [s])
  end.

(** The frame after LoadSettings, with the one member the frame record does
    not carry. *)
Record LOADED_FRAME : Type := mkLoaded {
  loaded_frame : EDA_DRAW_FRAME;
  m_UndoRedoCountMax : Z
}.

(** EDA_BASE_FRAME::LoadSettings and GAL_DISPLAY_OPTIONS::ReadConfig act on
    members of the base class and on the display options, none of which is
    part of the frame record. *)
Definition LoadSettings (fr : EDA_DRAW_FRAME) (aCfg : APP_SETTINGS_BASE) : LOADED_FRAME :=
  let window := m_Window aCfg in
  let userUnits := units (m_System aCfg) in
  let drawGrid := grid_show window in
  let lastGridSizeId := grid_last_size window in
  let lastGridSizeId := if lastGridSizeId <? 0 then 0 else lastGridSizeId in
  let undoRedoCountMax := max_undo_items (m_System aCfg) in
  let firstRunDialogSetting := first_run_shown (m_System aCfg) in
  let findReplaceData :=
    mkFindReplaceData (flags (m_FindReplace aCfg)) (find_string (m_FindReplace aCfg))
                      (replace_string (m_FindReplace aCfg)) in
  let findStringHistoryList :=
    add_history (find_history (m_FindReplace aCfg)) (m_findStringHistoryList fr) in
  let replaceStringHistoryList :=
    add_history (replace_history (m_FindReplace aCfg)) (m_replaceStringHistoryList fr) in
  mkLoaded
    (mkFrame (m_Ident fr) (m_canvasType fr) (m_file_checker fr) userUnits
             firstRunDialogSetting lastGridSizeId drawGrid (m_currentScreen fr)
             findReplaceData findStringHistoryList replaceStringHistoryList)
    undoRedoCountMax.

Section Destructor.
Variables GAL_TYPE_NONE GAL_TYPE_LAST : Z.
Variables FRAME_SCH FRAME_PCB_EDITOR FRAME_FOOTPRINT_EDITOR FRAME_GERBER : Z.

(** ~EDA_DRAW_FRAME, as far as the settings object and the file lock go:
    saveCanvasTypeSetting( m_canvasType ), later ReleaseFile(). *)
Definition destroy (fr : EDA_DRAW_FRAME) (aKifaceSettings : option APP_SETTINGS_BASE)
    : EDA_DRAW_FRAME * option APP_SETTINGS_BASE :=
  let saved :=
    saveCanvasTypeSetting GAL_TYPE_NONE GAL_TYPE_LAST FRAME_SCH FRAME_PCB_EDITOR
      FRAME_FOOTPRINT_EDITOR FRAME_GERBER fr aKifaceSettings (m_canvasType fr) in
  (ReleaseFile fr, fst saved).

End Destructor.

Definition wxNOT_FOUND : Z := -1.

(** The search loop of OnUpdateSelectGrid, from index [i] on:
    for( ; i < GetGridCount(); i++ )
        if( GetGridCmdId() == GetGrid( i ).m_CmdId ) { select = (int) i; break; } *)
Fixpoint grid_loop (aGridCmdId : Z) (grids : list Z) (i : nat) : Z :=
  match grids with
  | [] => wxNOT_FOUND
  | m_CmdId :: rest =>
      if aGridCmdId =? m_CmdId then wrap (Z.of_nat i)
      else grid_loop aGridCmdId rest (S i)
  end.

(** [m_gridSelectBox] is the selection of the grid box, when the box exists;
    [grids] are the command ids of the screen's grids. *)
Definition OnUpdateSelectGrid (m_gridSelectBox : option Z) (aGridCmdId : Z)
    (grids : list Z) : option Z :=
  match m_gridSelectBox with
  | None => None
  | Some selection =>
      let select := grid_loop aGridCmdId grids 0 in
      if negb (select =? selection) then Some select else Some selection
  end.

Inductive toolbar_call : Type :=
| ReCreateHToolbar | ReCreateVToolbar | ReCreateOptToolbar | SyncToolbars.

#[local] Instance toolbar_call_eq_dec : EqDecision toolbar_call.
Proof. solve_decision. Defined.

(** RecreateToolbars, as the calls it makes; the arguments tell which of the
    four toolbars exist. *)
Definition RecreateToolbars (m_mainToolBar m_drawToolBar m_optionsToolBar
    m_auxiliaryToolBar : bool) : list toolbar_call :=
  (if m_mainToolBar then [ReCreateHToolbar] else []) ++
  (if m_drawToolBar then [ReCreateVToolbar] else []) ++
  (if m_optionsToolBar then [ReCreateOptToolbar] else []) ++
  (if m_auxiliaryToolBar then [ReCreateOptToolbar] else []) ++
  [SyncToolbars].

(** *** Properties *)

Lemma add_history_app (history list_ : list string) :
  add_history history list_ = list_ ++ history.
Proof.
  revert list_. induction history as [|s rest IH]; intros list_; simpl.
  - now rewrite app_nil_r.
  - rewrite IH, <- app_assoc. reflexivity.
Qed.

(** LoadSettings adds the stored histories after what the frame already
    holds, never replacing it, so that loading the same settings twice
    leaves every stored entry twice; and the grid size id it leaves is never
    negative. *)
Theorem LoadSettings_appends_history (fr : EDA_DRAW_FRAME) (aCfg : APP_SETTINGS_BASE) :
  m_findStringHistoryList (loaded_frame (LoadSettings fr aCfg))
    = m_findStringHistoryList fr ++ find_history (m_FindReplace aCfg) /\
  m_replaceStringHistoryList (loaded_frame (LoadSettings fr aCfg))
    = m_replaceStringHistoryList fr ++ replace_history (m_FindReplace aCfg) /\
  m_findStringHistoryList
    (loaded_frame (LoadSettings (loaded_frame (LoadSettings fr aCfg)) aCfg))
    = m_findStringHistoryList fr ++ find_history (m_FindReplace aCfg)
                                 ++ find_history (m_FindReplace aCfg) /\
  0 <= m_LastGridSizeId (loaded_frame (LoadSettings fr aCfg)).
Proof.
  unfold LoadSettings.
  cbn [loaded_frame m_findStringHistoryList m_replaceStringHistoryList
       m_LastGridSizeId].
  rewrite !add_history_app, <- app_assoc.
  repeat split. destruct (Z.ltb_spec (grid_last_size (m_Window aCfg)) 0); lia.
Qed.

(** What SaveSettings writes, LoadSettings reads back: units, first-run
    flag, find/replace data, the undo limit of the current screen, and, after
    what the loading frame already holds, the first ten entries of each
    history. *)
Theorem SaveSettings_LoadSettings_roundtrip
    (Base_SaveSettings : EDA_DRAW_FRAME -> APP_SETTINGS_BASE -> APP_SETTINGS_BASE)
    (WriteConfig : EDA_DRAW_FRAME -> WINDOW_SETTINGS -> WINDOW_SETTINGS)
    (fr fr0 : EDA_DRAW_FRAME) (aCfg : APP_SETTINGS_BASE) :
  let loaded := LoadSettings fr0 (SaveSettings Base_SaveSettings WriteConfig fr aCfg) in
  m_userUnits (loaded_frame loaded) = m_userUnits fr /\
  m_firstRunDialogSetting (loaded_frame loaded) = m_firstRunDialogSetting fr /\
  m_findReplaceData (loaded_frame loaded) = m_findReplaceData fr /\
  m_findStringHistoryList (loaded_frame loaded)
    = m_findStringHistoryList fr0 ++ take FR_HISTORY_LIST_CNT (m_findStringHistoryList fr) /\
  m_replaceStringHistoryList (loaded_frame loaded)
    = m_replaceStringHistoryList fr0
      ++ take FR_HISTORY_LIST_CNT (m_replaceStringHistoryList fr) /\
  (forall screen, m_currentScreen fr = Some screen ->
     m_UndoRedoCountMax loaded = GetMaxUndoItems screen).
Proof.
  unfold LoadSettings, SaveSettings.
  cbn [loaded_frame m_UndoRedoCountMax m_userUnits m_firstRunDialogSetting
       m_findReplaceData m_findStringHistoryList m_replaceStringHistoryList
       m_System m_FindReplace m_Window units first_run_shown max_undo_items
       flags find_string replace_string find_history replace_history].
  rewrite !add_history_app, !history_loop_spec, !drop_0, !Nat.sub_0_r.
  cbn [app].
  split; [|split; [|split; [|split; [|split]]]].
  - destruct (m_currentScreen fr); reflexivity.
  - destruct (m_currentScreen fr); reflexivity.
  - destruct (m_findReplaceData fr); reflexivity.
  - reflexivity.
  - reflexivity.
  - intros screen ->. reflexivity.
Qed.

(** A frame whose histories hold at most ten entries gets them back exactly
    when a frame with empty histories loads what it saved. *)
Theorem SaveSettings_LoadSettings_short_history
    (Base_SaveSettings : EDA_DRAW_FRAME -> APP_SETTINGS_BASE -> APP_SETTINGS_BASE)
    (WriteConfig : EDA_DRAW_FRAME -> WINDOW_SETTINGS -> WINDOW_SETTINGS)
    (fr fr0 : EDA_DRAW_FRAME) (aCfg : APP_SETTINGS_BASE) :
  m_findStringHistoryList fr0 = [] ->
  m_replaceStringHistoryList fr0 = [] ->
  (length (m_findStringHistoryList fr) <= FR_HISTORY_LIST_CNT)%nat ->
  (length (m_replaceStringHistoryList fr) <= FR_HISTORY_LIST_CNT)%nat ->
  m_findStringHistoryList
    (loaded_frame (LoadSettings fr0 (SaveSettings Base_SaveSettings WriteConfig fr aCfg)))
    = m_findStringHistoryList fr /\
  m_replaceStringHistoryList
    (loaded_frame (LoadSettings fr0 (SaveSettings Base_SaveSettings WriteConfig fr aCfg)))
    = m_replaceStringHistoryList fr.
Proof.
  intros Hf0 Hr0 Hf Hr.
  unfold LoadSettings, SaveSettings.
  cbn [loaded_frame m_findStringHistoryList m_replaceStringHistoryList
       m_FindReplace find_history replace_history].
  rewrite !add_history_app, !history_loop_spec, !drop_0, !Nat.sub_0_r, Hf0, Hr0.
  cbn [app]. rewrite !take_ge by assumption. split; reflexivity.
Qed.

Lemma SaveSettings_LoadSettings_short_history_witness :
  m_findStringHistoryList
    (loaded_frame
       (LoadSettings (mkFrame 0 2 None 1 0 0 true None (mkFindReplaceData 0 "" "") [] [])
          (SaveSettings (fun _ cfg => cfg) (fun _ w => w) (sample_frame 0)
                        (sample_settings 1))))
  = ["R1"; "C1"].
Proof.
  apply (proj1 (SaveSettings_LoadSettings_short_history (fun _ cfg => cfg) (fun _ w => w)
                  (sample_frame 0)
                  (mkFrame 0 2 None 1 0 0 true None (mkFindReplaceData 0 "" "") [] [])
                  (sample_settings 1) eq_refl eq_refl
                  ltac:(unfold FR_HISTORY_LIST_CNT; simpl; lia)
                  ltac:(unfold FR_HISTORY_LIST_CNT; simpl; lia))).
Defined.

Section CanvasRoundTrip.
Variables GAL_TYPE_NONE GAL_TYPE_OPENGL GAL_TYPE_CAIRO GAL_TYPE_LAST : Z.
Variables FRAME_SCH FRAME_PCB_EDITOR FRAME_FOOTPRINT_EDITOR FRAME_GERBER : Z.
Variable WXMAC : bool.

Local Abbreviation Load := (LoadCanvasTypeSetting GAL_TYPE_NONE GAL_TYPE_OPENGL
                              GAL_TYPE_CAIRO GAL_TYPE_LAST WXMAC).
Local Abbreviation save := (saveCanvasTypeSetting GAL_TYPE_NONE GAL_TYPE_LAST
                              FRAME_SCH FRAME_PCB_EDITOR FRAME_FOOTPRINT_EDITOR FRAME_GERBER).
Local Abbreviation allowed := (allowed_frames FRAME_SCH FRAME_PCB_EDITOR
                                 FRAME_FOOTPRINT_EDITOR FRAME_GERBER).
Local Abbreviation fallback := (platform_default GAL_TYPE_OPENGL GAL_TYPE_CAIRO WXMAC).
Local Abbreviation destructor := (destroy GAL_TYPE_NONE GAL_TYPE_LAST
                              FRAME_SCH FRAME_PCB_EDITOR FRAME_FOOTPRINT_EDITOR FRAME_GERBER).

(** What an allowed frame saves is what the next LoadCanvasTypeSetting
    returns, except that a saved GAL_TYPE_NONE comes back as the platform
    default.  The same holds for the canvas type in use when the frame is
    destroyed. *)
Theorem saveCanvasTypeSetting_then_Load
    (fr : EDA_DRAW_FRAME) (cfg : APP_SETTINGS_BASE) (aCanvasType : Z) :
  m_Ident fr ∈ allowed ->
  GAL_TYPE_NONE <= aCanvasType < GAL_TYPE_LAST ->
  Load (fst (save fr (Some cfg) aCanvasType))
    = (if aCanvasType =? GAL_TYPE_NONE then fallback else aCanvasType) /\
  (m_canvasType fr = aCanvasType ->
   Load (snd (destructor fr (Some cfg)))
     = (if aCanvasType =? GAL_TYPE_NONE then fallback else aCanvasType)).
Proof.
  intros Hin Hrange.
  assert (Hsave : save fr (Some cfg) aCanvasType
                  = (Some (set_canvas_type cfg aCanvasType), false)).
  { unfold saveCanvasTypeSetting.
    apply allow_save_loop_elem_of in Hin. rewrite Hin. cbn [negb].
    destruct (Z.ltb_spec aCanvasType GAL_TYPE_NONE); [lia|].
    destruct (Z.leb_spec GAL_TYPE_LAST aCanvasType); [lia|]. reflexivity. }
  assert (Hload : Load (Some (set_canvas_type cfg aCanvasType))
                  = (if aCanvasType =? GAL_TYPE_NONE then fallback else aCanvasType)).
  { unfold LoadCanvasTypeSetting, set_canvas_type, platform_default.
    cbn [m_Graphics canvas_type].
    destruct (Z.ltb_spec aCanvasType GAL_TYPE_NONE); [lia|].
    destruct (Z.leb_spec GAL_TYPE_LAST aCanvasType); [lia|]. reflexivity. }
  split.
  - rewrite Hsave. exact Hload.
  - intros Hcanvas. unfold destroy. rewrite Hcanvas, Hsave. exact Hload.
Qed.

(** saveCanvasTypeSetting changes nothing but canvas_type: a missing settings
    object stays missing, every other member of an existing one is kept;
    and nothing at all changes for a frame that is not in the allowed list
    or for a canvas type outside the enumeration. *)
Theorem saveCanvasTypeSetting_frame
    (fr : EDA_DRAW_FRAME) (aKifaceSettings : option APP_SETTINGS_BASE)
    (aCanvasType : Z) :
  (m_Ident fr ∉ allowed \/ aCanvasType < GAL_TYPE_NONE \/ GAL_TYPE_LAST <= aCanvasType ->
   fst (save fr aKifaceSettings aCanvasType) = aKifaceSettings) /\
  match aKifaceSettings with
  | Some cfg =>
      exists cfg', fst (save fr aKifaceSettings aCanvasType) = Some cfg' /\
                   m_System cfg' = m_System cfg /\
                   m_FindReplace cfg' = m_FindReplace cfg /\
                   m_Window cfg' = m_Window cfg
  | None => fst (save fr aKifaceSettings aCanvasType) = None
  end.
Proof.
  unfold saveCanvasTypeSetting. split.
  - intros Hrefused.
    destruct (allow_save_loop (m_Ident fr) allowed) eqn:Hallowed; cbn [negb fst];
      [|reflexivity].
    apply allow_save_loop_elem_of in Hallowed.
    destruct Hrefused as [Hnot | Hrange]; [contradiction|].
    destruct (Z.ltb_spec aCanvasType GAL_TYPE_NONE); [reflexivity|].
    destruct (Z.leb_spec GAL_TYPE_LAST aCanvasType); [reflexivity | lia].
  - destruct aKifaceSettings as [cfg|];
      destruct (allow_save_loop (m_Ident fr) allowed); cbn [negb fst];
      destruct ((aCanvasType <? GAL_TYPE_NONE) || (GAL_TYPE_LAST <=? aCanvasType));
      cbn [fst]; eauto 6.
Qed.

End CanvasRoundTrip.

Lemma saveCanvasTypeSetting_then_Load_witness :
  LoadCanvasTypeSetting 0 1 2 3 false
    (fst (saveCanvasTypeSetting 0 3 0 4 5 10 (sample_frame 4) (Some (sample_settings 2)) 1))
  = 1.
Proof.
  apply (proj1 (saveCanvasTypeSetting_then_Load 0 1 2 3 0 4 5 10 false (sample_frame 4)
                  (sample_settings 2) 1
                  ltac:(unfold allowed_frames; set_solver) ltac:(lia))).
Defined.

(** *** The grid selection box *)

Lemma grid_loop_spec (aGridCmdId : Z) (grids : list Z) (i : nat) :
  (grid_loop aGridCmdId grids i = wxNOT_FOUND /\ aGridCmdId ∉ grids) \/
  (exists k : nat,
     grid_loop aGridCmdId grids i = wrap (Z.of_nat (i + k)) /\
     grids !! k = Some aGridCmdId /\
     forall j : nat, (j < k)%nat -> grids !! j <> Some aGridCmdId).
Proof.
  revert i. induction grids as [|m_CmdId rest IH]; intros i; cbn [grid_loop].
  - left. split; [reflexivity | apply not_elem_of_nil].
  - destruct (Z.eqb_spec aGridCmdId m_CmdId) as [-> | Hne].
    + right. exists 0%nat. rewrite Nat.add_0_r.
      split; [reflexivity|]. split; [reflexivity | intros j Hj; lia].
    + destruct (IH (S i)) as [[Hnone Hnot] | [k [Hk [Hlook Hfirst]]]].
      * left. split; [exact Hnone|]. rewrite not_elem_of_cons. auto.
      * right. exists (S k). replace (i + S k)%nat with (S i + k)%nat by lia.
        split; [exact Hk|]. split; [exact Hlook|].
        intros [|j] Hj; cbn; [congruence | apply Hfirst; lia].
Qed.

(** When the grid box exists, OnUpdateSelectGrid leaves it on the index of
    the first grid whose command id is the current one, or on wxNOT_FOUND
    when no grid has that id (for a list of grids an [int] can index). *)
Theorem OnUpdateSelectGrid_selects_first
    (selection aGridCmdId : Z) (grids : list Z) :
  Z.of_nat (length grids) <= INT_MAX ->
  exists select,
    OnUpdateSelectGrid (Some selection) aGridCmdId grids = Some select /\
    ((select = wxNOT_FOUND /\ aGridCmdId ∉ grids) \/
     (0 <= select /\
      grids !! Z.to_nat select = Some aGridCmdId /\
      forall j : nat, (j < Z.to_nat select)%nat -> grids !! j <> Some aGridCmdId)) /\
    OnUpdateSelectGrid (Some select) aGridCmdId grids = Some select.
Proof.
  intros Hlen. exists (grid_loop aGridCmdId grids 0).
  split; [|split].
  - unfold OnUpdateSelectGrid.
    destruct (Z.eqb_spec (grid_loop aGridCmdId grids 0) selection) as [-> | Hne];
      reflexivity.
  - destruct (grid_loop_spec aGridCmdId grids 0) as [H | [k [Hk [Hlook Hfirst]]]];
      [left; exact H | right].
    pose proof (lookup_lt_Some _ _ _ Hlook) as Hlt.
    rewrite Hk, Nat.add_0_l, wrap_small, Nat2Z.id
      by (unfold is_int, INT_MIN, INT_MAX, int_bits in *; simpl in *; lia).
    split; [lia | split; assumption].
  - unfold OnUpdateSelectGrid. rewrite Z.eqb_refl. reflexivity.
Qed.

Lemma OnUpdateSelectGrid_witness :
  exists select,
    OnUpdateSelectGrid (Some 0) 30 [10; 30; 20; 30] = Some select /\
    ((select = wxNOT_FOUND /\ 30 ∉ [10; 30; 20; 30]) \/
     (0 <= select /\
      [10; 30; 20; 30] !! Z.to_nat select = Some 30 /\
      forall j : nat, (j < Z.to_nat select)%nat -> [10; 30; 20; 30] !! j <> Some 30)) /\
    OnUpdateSelectGrid (Some select) 30 [10; 30; 20; 30] = Some select.
Proof.
  apply (OnUpdateSelectGrid_selects_first 0 30 [10; 30; 20; 30]).
  vm_compute. discriminate.
Defined.

(** *** Toolbars *)

(** RecreateToolbars rebuilds the options toolbar once if it exists and once
    more if an auxiliary toolbar exists; it synchronises the toolbars exactly
    once, as its last call. *)
Theorem RecreateToolbars_calls
    (m_mainToolBar m_drawToolBar m_optionsToolBar m_auxiliaryToolBar : bool) :
  let calls := RecreateToolbars m_mainToolBar m_drawToolBar m_optionsToolBar
                                m_auxiliaryToolBar in
  length (filter (fun c => c = ReCreateOptToolbar) calls)
    = ((if m_optionsToolBar then 1 else 0) + (if m_auxiliaryToolBar then 1 else 0))%nat /\
  last calls = Some SyncToolbars /\
  length (filter (fun c => c = SyncToolbars) calls) = 1%nat /\
  (ReCreateOptToolbar ∈ calls <-> m_optionsToolBar = true \/ m_auxiliaryToolBar = true).
Proof.
  destruct m_mainToolBar, m_drawToolBar, m_optionsToolBar, m_auxiliaryToolBar;
    cbn; (split; [reflexivity | split; [reflexivity | split; [reflexivity |]]]);
    split; intros H;
    try (left; reflexivity); try (right; reflexivity);
    try (destruct H; discriminate);
    try (repeat (apply elem_of_cons; first [left; reflexivity | right]); fail);
    repeat (apply elem_of_cons in H; destruct H as [H | H]; [discriminate|]);
    try (apply elem_of_nil in H; contradiction).
Qed.

End FrameOps.

(** ** More of include/settings/settings_manager.h: the list of colour
    schemes *)

Module ColorSettingsList.
Import FieldOps.

(** A colour scheme, as far as the list looks at it. *)
Record COLOR_SETTINGS : Type := mkColorSettings {
  GetName : string;
  GetFilename : string
}.

(** The comparison given to std::sort, a->GetName() < b->GetName(), read as
    "b does not come before a". *)
Definition name_le (a b : COLOR_SETTINGS) : Prop :=
  wxString_lt (GetName b) (GetName a) = false.

#[local] Instance name_le_dec : RelDecision name_le.
Proof. intros a b. unfold name_le. solve_decision. Defined.

(** GetColorSettingsList: the values of m_color_settings (an unordered map,
    taken in the order [map_to_list] gives), sorted by name.  std::sort is
    modelled by a merge sort. *)
Definition GetColorSettingsList (m_color_settings : gmap string COLOR_SETTINGS)
    : list COLOR_SETTINGS :=
  let ret := (map_to_list m_color_settings).*2 in
  merge_sort name_le ret.

#[local] Instance name_le_total : Total name_le.
Proof.
  intros a b. unfold name_le.
  destruct (wxString_lt (GetName b) (GetName a)) eqn:Hba; [right | left; reflexivity].
  apply not_true_is_false. intros Hab.
  apply wxString_lt_iff in Hba, Hab.
  exact (wxString_lt_irrefl _ (wxString_lt_trans _ _ _ Hab Hba)).
Qed.

(** GetColorSettingsList returns every registered colour scheme, each as
    often as it is registered and nothing else, in an order in which no
    scheme is followed by one whose name is smaller. *)
Theorem GetColorSettingsList_sorted (m_color_settings : gmap string COLOR_SETTINGS) :
  Sorted name_le (GetColorSettingsList m_color_settings) /\
  GetColorSettingsList m_color_settings ≡ₚ (map_to_list m_color_settings).*2 /\
  length (GetColorSettingsList m_color_settings) = size m_color_settings /\
  (forall c, c ∈ GetColorSettingsList m_color_settings <->
             exists key, m_color_settings !! key = Some c).
Proof.
  unfold GetColorSettingsList.
  pose proof (merge_sort_Permutation name_le (map_to_list m_color_settings).*2) as Hperm.
  split; [apply (Sorted_merge_sort name_le)|].
  split; [exact Hperm|]. split.
  - rewrite Hperm, length_fmap. apply length_map_to_list.
  - intros c. rewrite Hperm, list_elem_of_fmap. split.
    + intros [[key c'] [-> Hin]]. exists key. now apply elem_of_map_to_list.
    + intros [key Hkey]. exists (key, c). split; [reflexivity|].
      now apply elem_of_map_to_list.
Qed.

End ColorSettingsList.

(** ** More of eeschema/sch_field.cpp: find and replace *)

Module FieldReplace.
Import Geometry SchField.

(** Field 1 of a symbol is its value (see the head of sch_field.cpp). *)
Definition VALUE : Z := 1.

(** What Replace leaves behind: the field (as SetRef leaves it, when SetRef
    is called), the reference given to SetRef (when it is called), and the
    result. *)
Record REPLACED : Type := mkReplaced {
  field_after : SCH_FIELD;
  SetRef_call : option string;
  isReplaced : bool
}.

Section Replace.
Context `{TL : TextLayer}.
(** The search data, the sheet path passed as aAuxData, and the helpers of
    other classes, none of which is among the sources:
    wxFindReplaceData::GetFlags, the flag FR_REPLACE_REFERENCES,
    EDA_ITEM::Replace( aSearchData, text ) (the new text when it replaced
    something), EDA_TEXT::Replace( aSearchData ) (the new item when it
    replaced something), SCH_COMPONENT::GetRef, SCH_COMPONENT::SetRef and
    LIB_PART::IsPower of the symbol's part (when it has one).  The symbol
    holds its fields, this one among them, so SetRef may change the field:
    [SetRef c path text f] is the field [f] as SetRef( path, text ) called
    on its owner [c] leaves it. *)
Variables wxFindReplaceData SCH_SHEET_PATH : Type.
Variable GetFlags : wxFindReplaceData -> Z.
Variable FR_REPLACE_REFERENCES : Z.
Variable EDA_ITEM_Replace : wxFindReplaceData -> string -> option string.
Variable EDA_TEXT_Replace : wxFindReplaceData -> SCH_FIELD -> option SCH_FIELD.
Variable GetRef : SCH_COMPONENT -> SCH_SHEET_PATH -> string.
Variable SetRef : SCH_COMPONENT -> SCH_SHEET_PATH -> string -> SCH_FIELD -> SCH_FIELD.
Variable IsPower : SCH_COMPONENT -> option bool.

Definition IsReplaceable (f : SCH_FIELD) : bool :=
  match m_Parent f with
  | Some (ItemComponent parentComponent) =>
      if m_id f =? VALUE then
        match IsPower parentComponent with
        | Some true => false
        | _ => true
        end
      else true
  | Some (ItemSheet _) =>
      if m_id f =? SHEETFILENAME then false else true
  | _ => true
  end.

Definition Replace (f : SCH_FIELD) (aSearchData : wxFindReplaceData)
    (aAuxData : option SCH_SHEET_PATH) : REPLACED :=
  match m_Parent f with
  | Some (ItemComponent parentComponent) =>
      if m_id f =? REFERENCE then
        if m_id f =? REFERENCE then
          match aAuxData with
          | None => mkReplaced f None false                     (* wxCHECK_MSG *)
          | Some path =>
              if Z.land (GetFlags aSearchData) FR_REPLACE_REFERENCES =? 0
              then mkReplaced f None false                      (* wxCHECK_MSG *)
              else
                let text := GetRef parentComponent path in
                match EDA_ITEM_Replace aSearchData text with
                | Some text' =>
                    mkReplaced (SetRef parentComponent path text' f) (Some text') true
                | None => mkReplaced f None false
                end
          end
        else
          match EDA_TEXT_Replace aSearchData f with
          | Some f' => mkReplaced f' None true
          | None => mkReplaced f None false
          end
      else mkReplaced f None false
  | Some (ItemSheet _) =>
      match EDA_TEXT_Replace aSearchData f with
      | Some f' => mkReplaced f' None true
      | None => mkReplaced f None false
      end
  | _ => mkReplaced f None false
  end.

(** Replace never changes a field of a symbol other than the reference: it
    returns false and leaves the field as it is, whatever is searched for,
    although IsReplaceable holds for such a field unless it is the value of
    a power symbol. *)
Theorem Replace_skips_symbol_fields
    (f : SCH_FIELD) (parentComponent : SCH_COMPONENT)
    (aSearchData : wxFindReplaceData) (aAuxData : option SCH_SHEET_PATH) :
  m_Parent f = Some (ItemComponent parentComponent) ->
  m_id f <> REFERENCE ->
  Replace f aSearchData aAuxData = mkReplaced f None false /\
  (m_id f <> VALUE \/ IsPower parentComponent <> Some true -> IsReplaceable f = true).
Proof.
  intros Hpar Hid. unfold Replace, IsReplaceable. rewrite Hpar.
  destruct (Z.eqb_spec (m_id f) REFERENCE) as [Heq | _]; [contradiction|].
  split; [reflexivity|].
  intros [Hval | Hpower].
  - destruct (Z.eqb_spec (m_id f) VALUE); [contradiction | reflexivity].
  - destruct (m_id f =? VALUE); [|reflexivity].
    destruct (IsPower parentComponent) as [[|]|]; congruence.
Qed.

(** Replace calls SetRef only for the reference of a symbol, with a sheet
    path and with the flag FR_REPLACE_REFERENCES, and then returns true;
    whenever it does not call SetRef, a field owned by a symbol is left as
    it is. *)
Theorem Replace_reference_guards
    (f : SCH_FIELD) (aSearchData : wxFindReplaceData)
    (aAuxData : option SCH_SHEET_PATH) :
  (SetRef_call (Replace f aSearchData aAuxData) <> None ->
     is_component (m_Parent f) <> None /\ m_id f = REFERENCE /\ aAuxData <> None /\
     Z.land (GetFlags aSearchData) FR_REPLACE_REFERENCES <> 0 /\
     isReplaced (Replace f aSearchData aAuxData) = true) /\
  (is_component (m_Parent f) <> None ->
   SetRef_call (Replace f aSearchData aAuxData) = None ->
     field_after (Replace f aSearchData aAuxData) = f /\
     isReplaced (Replace f aSearchData aAuxData) = false).
Proof.
  unfold Replace.
  destruct (m_Parent f) as [[c | s | t]|]; cbn [is_component].
  - destruct (Z.eqb_spec (m_id f) REFERENCE) as [Hid | Hid];
      cbn [field_after SetRef_call isReplaced].
    + destruct aAuxData as [path|]; cbn [field_after SetRef_call isReplaced].
      * destruct (Z.eqb_spec (Z.land (GetFlags aSearchData) FR_REPLACE_REFERENCES) 0);
          cbn [field_after SetRef_call isReplaced].
        -- split; [intros H; contradiction | intros _ _; split; reflexivity].
        -- destruct (EDA_ITEM_Replace aSearchData (GetRef c path));
             cbn [field_after SetRef_call isReplaced]; split.
           ++ intros _. repeat split; congruence.
           ++ intros _ H. discriminate.
           ++ intros H. contradiction.
           ++ intros _ _. split; reflexivity.
      * split; [intros H; contradiction | intros _ _; split; reflexivity].
    + split; [intros H; contradiction | intros _ _; split; reflexivity].
  - split; [| intros H; contradiction].
    destruct (EDA_TEXT_Replace aSearchData f); cbn [SetRef_call]; intros H; contradiction.
  - split; intros H; contradiction.
  - split; intros H; contradiction.
Qed.

End Replace.

(** The reference field of [mirrored_symbol]. *)
Definition reference_of_symbol : SCH_FIELD := {|
  m_Parent := Some (ItemComponent mirrored_symbol); m_Layer := 0;
  m_forceVisible := false; m_id := 0;
  m_name := "Reference"; m_text := "R1"; m_textPos := mkPoint 1000 1900;
  m_textAngle := 0; m_textSize := mkPoint 50 50; m_thickness := 0;
  m_visible := true; m_bold := false; m_italic := false;
  m_hjustify := GR_TEXT_HJUSTIFY_CENTER; m_vjustify := GR_TEXT_VJUSTIFY_CENTER;
  m_markupFlags := 0
|}.

(** Replace on the reference of a symbol, with a sheet path and the flag
    set: SetRef is called and the result is true. *)
Lemma Replace_reference_guards_witness :
  m_id reference_of_symbol = REFERENCE /\
  isReplaced
    (Replace unit unit (fun _ => 1) 1
       (fun _ _ => Some "R2") (fun _ f => Some (SetText f "R2"))
       (fun _ _ => "R1") (fun _ _ text f => SetText f text)
       reference_of_symbol tt (Some tt)) = true.
Proof.
  destruct (proj1 (Replace_reference_guards unit unit (fun _ => 1) 1
                     (fun _ _ => Some "R2") (fun _ f => Some (SetText f "R2"))
                     (fun _ _ => "R1") (fun _ _ text f => SetText f text)
                     reference_of_symbol tt (Some tt)) ltac:(discriminate))
    as [_ [Hid [_ [_ Hreplaced]]]].
  split; assumption.
Defined.

Lemma Replace_skips_symbol_fields_witness :
  Replace unit unit (fun _ => 0) 1
     (fun _ _ => Some "replaced") (fun _ f => Some (SetText f "replaced"))
     (fun _ _ => "R1") (fun _ _ text f => SetText f text)
     (field_of_symbol "10k") tt (Some tt)
  = mkReplaced (field_of_symbol "10k") None false.
Proof.
  apply (proj1 (@Replace_skips_symbol_fields centred_layer unit unit (fun _ => 0) 1
                  (fun _ _ => Some "replaced") (fun _ f => Some (SetText f "replaced"))
                  (fun _ _ => "R1") (fun _ _ text f => SetText f text) (fun _ => None)
                  (field_of_symbol "10k") mirrored_symbol tt (Some tt)
                  eq_refl ltac:(discriminate))).
Defined.

End FieldReplace.
